(** * pyBASEX: basis synthesis, projection operators, disk cache and transform

    A shallow embedding of [abel/basex.py] (and of the constructor, the
    call and [center_image] of the legacy [BASEX/core.py]) together with
    the properties its design document states about them, and with
    further properties read off the code.

    Conventions of the embedding.

    - Python integers are [Z]; [//] is [Z.div] and [%] is [Z.modulo]
      (both floor like Python's for the positive divisor 2).  The integer
      arrays of numpy are lists of [Z]: sizes at which 64-bit integers
      would wrap are outside the model.  The pixel size [dr] is a Python
      number, a rational [Q].
    - Floating point numbers are the carrier [F] of the interface
      [Scalar]: conversions, the four arithmetic operations, [exp], [log],
      [scipy.special.gammaln], [ndarray.sum], the inner product used by
      [ndarray.dot] and [numpy.linalg.inv].  No algebraic law is assumed
      of them, so every statement below holds for IEEE doubles and for
      the symbolic instance [sym] alike.  Range errors of [math.exp] and
      domain errors of [math.log] are outside the model.
    - A Python exception is a value of [exn]; code that may raise returns
      a [result].
    - The file system and the order of the calls that matter to the cache
      (exists, load, synthesize, save) are the two fields of [world].
    - What comes from modules that are not among the sources (the filters
      of [scipy.ndimage], [center_image] and [calculate_speeds] of
      [abel/tools.py], the legacy synthesizer) is a parameter of the
      function that calls it. *)

From Stdlib Require Import ZArith QArith List Bool Lia Ascii String.
From stdpp Require Import base tactics option list gmap strings pretty.

Local Open Scope Z_scope.

(** ** Exceptions and results *)

(** The [ValueError]s the code can raise, told apart by where they come
    from. *)
Inductive value_error : Type :=
| n_must_be_odd          (* generate_basis_sets: n % 2 == 0 *)
| nbf_too_large          (* generate_basis_sets: n//2 < nbf *)
| negative_dimensions    (* np.zeros with a negative dimension *)
| shapes_not_aligned     (* ndarray.dot, broadcasting *)
| unpack_mismatch        (* tuple unpacking of the wrong number of items *)
| unreadable_file.       (* np.load on a file it rejects with ValueError *)

Inductive exn : Type :=
| ValueError (why : value_error)
| IndexError
| ZeroDivisionError
| LinAlgError
| IOError
| UnboundLocalError
| AttributeError
| NotImplementedError.

Inductive result (A : Type) : Type :=
| Ok (a : A)
| Raise (e : exn).
Arguments Ok {A} _.
Arguments Raise {A} _.

Definition bind {A B} (r : result A) (k : A -> result B) : result B :=
  match r with
  | Ok a => k a
  | Raise e => Raise e
  end.

Notation "'let*' x ':=' e 'in' k" := (bind e (fun x => k))
  (at level 10, x pattern, e at level 100, k at level 200).

(** [for x in xs: state = body(state, x)], leaving at the first exception. *)
Fixpoint foldM {A B} (body : B -> A -> result B) (xs : list A) (b : B) : result B :=
  match xs with
  | [] => Ok b
  | x :: xs' => let* b' := body b x in foldM body xs' b'
  end.

(** [range(a, b)] and [np.arange(a, b)] on integers. *)
Definition arange (a b : Z) : list Z := seqZ a (b - a).

(** ** The numerical library as an interface *)

Class Scalar (F : Type) : Type := {
  of_Z : Z -> F;                 (* an int used where a float is expected *)
  lit : Q -> F;                  (* a float literal *)
  fadd : F -> F -> F;
  fsub : F -> F -> F;
  fmul : F -> F -> F;
  fdiv : F -> F -> F;
  fexp : F -> F;                 (* math.exp, np.exp *)
  flog : F -> F;                 (* math.log *)
  gammaln : F -> F;              (* scipy.special.gammaln *)
  fsum : list F -> F;            (* ndarray.sum() *)
  fdot : list F -> list F -> F;  (* one entry of ndarray.dot *)
  (* numpy.linalg.inv on the n x n matrix of the given rows: the entries
     of the inverse, or None for a singular matrix *)
  linalg_inv : nat -> list (list F) -> option (nat -> nat -> F);
}.

(** The free instance: every operation builds the expression it stands
    for, so that the model can be run and its output read against the
    source. *)
#[local] Unset Elimination Schemes.
Inductive sym : Type :=
| SInt (z : Z)
| SLit (q : Q)
| SAdd (x y : sym)
| SSub (x y : sym)
| SMul (x y : sym)
| SDiv (x y : sym)
| SExp (x : sym)
| SLog (x : sym)
| SGammaln (x : sym)
| SSum (xs : list sym)
| SDot (xs ys : list sym)
| SInv (n : nat) (rows : list (list sym)) (i j : nat).
#[local] Set Elimination Schemes.

#[export] Instance sym_scalar : Scalar sym := {|
  of_Z := SInt;
  lit := SLit;
  fadd := SAdd;
  fsub := SSub;
  fmul := SMul;
  fdiv := SDiv;
  fexp := SExp;
  flog := SLog;
  gammaln := SGammaln;
  fsum := SSum;
  fdot := SDot;
  linalg_inv := fun n rows => Some (SInv n rows);
|}.

(** Float arithmetic is written infix in the scope [F]. *)
Declare Scope F_scope.
Delimit Scope F_scope with F.
Infix "+" := fadd : F_scope.
Infix "-" := fsub : F_scope.
Infix "*" := fmul : F_scope.
Infix "/" := fdiv : F_scope.

(** ** Two-dimensional float arrays *)

Record ndarray (F : Type) : Type := mk_ndarray {
  shape0 : nat;               (* number of rows *)
  shape1 : nat;               (* number of columns *)
  rows : list (list F);
}.
Arguments mk_ndarray {F} _ _ _.
Arguments shape0 {F} _.
Arguments shape1 {F} _.
Arguments rows {F} _.

(** What a name of the cache code can be bound to. *)
Inductive pyobj (F : Type) : Type :=
| PyNone
| PyArray (a : ndarray F)
| PyStr (s : string).
Arguments PyNone {F}.
Arguments PyArray {F} _.
Arguments PyStr {F} _.

(** The [nbf] argument: the string ['auto'] or an integer. *)
Inductive nbf_arg : Type :=
| auto
| given (nbf : Z).

(** ** Files and the calls made on them *)

(** How [np.load] fails on a file it cannot read: with a [ValueError], or
    with any other exception ([IOError] stands for them). *)
Inductive load_failure : Type :=
| fails_with_ValueError
| fails_with_other.

(** A file under the cache directory: unreadable, or the sequence of
    objects [np.save] stored. *)
Inductive stored (F : Type) : Type :=
| Unreadable (why : load_failure)
| Saved (items : list (pyobj F)).
Arguments Unreadable {F} _.
Arguments Saved {F} _.

Inductive event : Type :=
| EvExists (path : string)       (* os.path.exists(path) *)
| EvLoad (path : string)         (* np.load(path) *)
| EvGenerate (n nbf : Z)         (* generate_basis_sets(n, nbf) *)
| EvSave (path : string).        (* np.save(path, ...) *)

Record world (F : Type) : Type := mk_world {
  files : gmap string (stored F);
  log : list event;              (* oldest first *)
}.
Arguments mk_world {F} _ _.
Arguments files {F} _.
Arguments log {F} _.

Definition io (F A : Type) : Type := world F -> world F * result A.

Definition io_ret {F A} (a : A) : io F A := fun w => (w, Ok a).

Definition io_bind {F A B} (c : io F A) (k : A -> io F B) : io F B :=
  fun w =>
    match c w with
    | (w', Ok a) => k a w'
    | (w', Raise e) => (w', Raise e)
    end.

Notation "'let!' x ':=' e 'in' k" := (io_bind e (fun x => k))
  (at level 10, x pattern, e at level 100, k at level 200).

Definition io_lift {F A} (r : result A) : io F A := fun w => (w, r).

Definition emit {F} (e : event) : io F unit :=
  fun w => (mk_world (files w) (log w ++ [e]), Ok tt).

(** [try: c  except ValueError: h] (any other exception goes through, as
    the bare [except: raise] of the source does). *)
Definition except_ValueError {F A} (c h : io F A) : io F A :=
  fun w =>
    match c w with
    | (w', Raise (ValueError _)) => h w'
    | r => r
    end.

(** ** numpy arrays *)

Section Arrays.
Context {F : Type} {SF : Scalar F}.

(** The array of the given shape whose entry [(i, j)] is [f i j]. *)
Definition tabulate (n m : nat) (f : nat -> nat -> F) : ndarray F :=
  mk_ndarray n m ((fun i => f i <$> seq 0 m) <$> seq 0 n).

(** [np.zeros((n, m))]. *)
Definition np_zeros (n m : Z) : result (ndarray F) :=
  if (n <? 0) || (m <? 0) then Raise (ValueError negative_dimensions)
  else Ok (mk_ndarray (Z.to_nat n) (Z.to_nat m)
             (replicate (Z.to_nat n) (replicate (Z.to_nat m) (lit 0%Q)))).

(** [np.identity(n)]. *)
Definition np_identity (n : nat) : ndarray F :=
  tabulate n n (fun i j => if (i =? j)%nat then lit 1%Q else lit 0%Q).

(** A Python index into an axis of length [len]: negative indices count
    from the end, anything else out of range raises. *)
Definition index (len : nat) (i : Z) : result nat :=
  if (0 <=? i) && (i <? Z.of_nat len) then Ok (Z.to_nat i)
  else if (- Z.of_nat len <=? i) && (i <? 0) then Ok (Z.to_nat (Z.of_nat len + i))
  else Raise IndexError.

(** The entry at a position in range. *)
Definition entry (a : ndarray F) (i j : nat) : option F :=
  rows a !! i ≫= (.!! j).

(** The array with one entry replaced. *)
Definition upd (a : ndarray F) (i j : nat) (v : F) : ndarray F :=
  mk_ndarray (shape0 a) (shape1 a) (alter (<[j := v]>) i (rows a)).

(** [a[i, j]]. *)
Definition getitem (a : ndarray F) (i j : Z) : result F :=
  let* i' := index (shape0 a) i in
  let* j' := index (shape1 a) j in
  match entry a i' j' with
  | Some x => Ok x
  | None => Raise IndexError
  end.

(** [a[i, j] = v]. *)
Definition setitem (a : ndarray F) (i j : Z) (v : F) : result (ndarray F) :=
  let* i' := index (shape0 a) i in
  let* j' := index (shape1 a) j in
  Ok (upd a i' j' v).

(** [a[:, j] = v] for a one-dimensional [v] with one item per row. *)
Definition setcol (a : ndarray F) (j : Z) (v : list F) : result (ndarray F) :=
  let* j' := index (shape1 a) j in
  if (length v =? shape0 a)%nat
  then Ok (mk_ndarray (shape0 a) (shape1 a)
             (zip_with (fun r x => <[j' := x]> r) (rows a) v))
  else Raise (ValueError shapes_not_aligned).

(** [xs[i]] on a one-dimensional integer array. *)
Definition getitem1 (xs : list Z) (i : Z) : result Z :=
  let* i' := index (length xs) i in
  match xs !! i' with
  | Some x => Ok x
  | None => Raise IndexError
  end.

(** [a.T]. *)
Definition transpose (a : ndarray F) : ndarray F :=
  mk_ndarray (shape1 a) (shape0 a)
    ((fun j => omap (.!! j) (rows a)) <$> seq 0 (shape1 a)).

(** The matrix product, entry by entry, without the shape check. *)
Definition mmul (a b : ndarray F) : ndarray F :=
  mk_ndarray (shape0 a) (shape1 b)
    ((fun r => fdot r <$> rows (transpose b)) <$> rows a).

(** [a.dot(b)]. *)
Definition dot (a b : ndarray F) : result (ndarray F) :=
  if (shape1 a =? shape0 b)%nat then Ok (mmul a b)
  else Raise (ValueError shapes_not_aligned).

(** [a * s] and [a *= s] for a scalar [s]. *)
Definition mscale (a : ndarray F) (s : F) : ndarray F :=
  mk_ndarray (shape0 a) (shape1 a) ((fun r : list F => (fun x => fmul x s) <$> r) <$> rows a).

(** The entrywise sum, without the shape check. *)
Definition madd (a b : ndarray F) : ndarray F :=
  mk_ndarray (shape0 a) (shape1 a) (zip_with (zip_with fadd) (rows a) (rows b)).

(** [a + b] for two arrays of one shape. *)
Definition add (a b : ndarray F) : result (ndarray F) :=
  if (shape0 a =? shape0 b)%nat && (shape1 a =? shape1 b)%nat then Ok (madd a b)
  else Raise (ValueError shapes_not_aligned).

(** [numpy.linalg.inv(a)]. *)
Definition inv (a : ndarray F) : result (ndarray F) :=
  if (shape0 a =? shape1 a)%nat then
    match linalg_inv (shape0 a) (rows a) with
    | Some b => Ok (tabulate (shape0 a) (shape0 a) b)
    | None => Raise LinAlgError
    end
  else Raise LinAlgError.

End Arrays.

(** ** The basis synthesizer: [generate_basis_sets] *)

Section Synthesizer.
Context {F : Type} {SF : Scalar F}.

Definition MAX_BASIS_SET_OFFSET : Z := 4000.

(** [_nbf_default(n, nbf)]; the warning it may print is not modelled. *)
Definition _nbf_default (n : Z) (nbf : nbf_arg) : Z :=
  match nbf with
  | auto => n / 2
  | given nbf => nbf
  end.

(** The body of [for l in range(1, n-Rm+1)]; the sum over the array [p]
    is the vectorized third loop of the source. *)
Definition l_body (Rm k k2 : Z) (log_k2 angn gammaln_0o5 : F) (delta : list Z)
    (st : ndarray F * ndarray F) (l : Z) : result (ndarray F * ndarray F) :=
  let '(M, Mc) := st in
  let l2 := l * l in
  let log_l2 := flog (of_Z l2) in
  let val := fexp (of_Z (k2 - l2) + of_Z (2 * k2) * flog (lit 1%Q * of_Z l / of_Z k))%F in
  let* Mc := setitem Mc (l - 1 + Rm) k val in
  let* Mc := setitem Mc (Rm - l - 1) k val in
  let* mc0 := getitem Mc (l + Rm - 1) 0 in
  let aux := (val + angn * mc0)%F in
  let* delta_k := getitem1 delta k in
  let p := arange (Z.max 1 (l2 - delta_k)) (Z.min (k2 - 1) (l2 + delta_k) + 1) in
  let aux :=
    (aux + fsum ((fun p =>
                    fexp (of_Z (k2 - l2) - of_Z k2 * log_k2 + of_Z p * log_l2
                          + gammaln (of_Z (k2 + 1)) - gammaln (of_Z (p + 1))
                          + gammaln (of_Z (k2 - p) + lit (1 # 2)) - gammaln_0o5
                          - gammaln (of_Z (k2 - p + 1)))) <$> p))%F in
  let aux := (aux * of_Z 2)%F in
  let* M := setitem M (l + Rm - 1) k aux in
  let* M := setitem M (Rm - l - 1) k aux in
  Ok (M, Mc).

(** The body of [for k in range(1, nbf)]. *)
Definition k_body (n Rm : Z) (gammaln_0o5 : F) (delta : list Z)
    (st : ndarray F * ndarray F) (k : Z) : result (ndarray F * ndarray F) :=
  let '(M, Mc) := st in
  let k2 := k * k in
  let log_k2 := flog (of_Z k2) in
  let angn :=
    fexp (of_Z k2 - of_Z (2 * k2) * flog (of_Z k)
          + gammaln (of_Z k2 + lit (1 # 2)) - gammaln_0o5)%F in
  let* M := setitem M (Rm - 1) k (of_Z 2 * angn)%F in
  foldM (l_body Rm k k2 log_k2 angn gammaln_0o5 delta) (arange 1 (n - Rm + 1)) (M, Mc).

(** [generate_basis_sets(n, nbf, verbose)].  Of the progress output only
    the last line is modelled: it reads the loop variable [k], which is
    unbound when the loop over [k] has not run. *)
Definition generate_basis_sets (n : Z) (nbf : nbf_arg) (verbose : bool)
    : result (ndarray F * ndarray F) :=
  if n mod 2 =? 0 then Raise (ValueError n_must_be_odd) else
  let nbf := _nbf_default n nbf in
  if n / 2 <? nbf then Raise (ValueError nbf_too_large) else
  let Rm := n / 2 + 1 in
  let I := arange 1 (n + 1) in
  let R2 := (fun i => (i - Rm) ^ 2) <$> I in
  let* M := np_zeros n nbf in
  let* Mc := np_zeros n nbf in
  let* M := setcol M 0 ((fun r => of_Z 2 * fexp (of_Z (- r)))%F <$> R2) in
  let* Mc := setcol Mc 0 ((fun r => fexp (of_Z (- r))) <$> R2) in
  let gammaln_0o5 := gammaln (lit (1 # 2)) in
  let delta :=
    (fun i => Z.max (i * 32 - MAX_BASIS_SET_OFFSET) MAX_BASIS_SET_OFFSET) <$> arange 0 nbf in
  let ks := arange 1 nbf in
  let* (M, Mc) := foldM (k_body n Rm gammaln_0o5 delta) ks (M, Mc) in
  if verbose && bool_decide (ks = []) then Raise UnboundLocalError
  else Ok (M, Mc).

End Synthesizer.

(** ** The projection operators and the transform *)

Section Transform.
Context {F : Type} {SF : Scalar F}.

(** [_get_left_right_matrices(M, Mc)]. *)
Definition _get_left_right_matrices (M Mc : ndarray F)
    : result (ndarray F * ndarray F) :=
  let* McT_Mc := dot (transpose Mc) Mc in
  let* McT_Mc_inv := inv McT_Mc in
  let* M_left := dot McT_Mc_inv (transpose Mc) in
  let q := 1 in
  let nbf := shape1 M in
  let E := mscale (np_identity nbf) (of_Z q) in
  let* MT_M := dot (transpose M) M in
  let* MT_M_E := add MT_M E in
  let* MT_M_E_inv := inv MT_M_E in
  let* M_right := dot M MT_M_E_inv in
  Ok (M_left, M_right).

(** [get_left_right_matrices(M, Mc)] of the legacy module: the same
    products and inverses, written with [np.matrix] operators. *)
Definition get_left_right_matrices (M Mc : ndarray F)
    : result (ndarray F * ndarray F) :=
  let* McT_Mc := dot (transpose Mc) Mc in
  let* McT_Mc_I := inv McT_Mc in
  let* left_ := dot McT_Mc_I (transpose Mc) in
  let q := 1 in
  let NBF := shape1 M in
  let E := mscale (np_identity NBF) (of_Z q) in
  let* MT_M := dot (transpose M) M in
  let* MT_M_E := add MT_M E in
  let* MT_M_E_I := inv MT_M_E in
  let* right_ := dot M MT_M_E_I in
  Ok (left_, right_).

Definition MAGIC_NUMBER : F := lit (8053 # 1000).

(** [x / dr] for a Python float [x] and a Python number [dr]. *)
Definition truediv (x : F) (dr : Q) : result F :=
  if Qeq_bool dr 0 then Raise ZeroDivisionError else Ok (fdiv x (lit dr)).

(** [basex_transform(rawdata, M, Mc, M_left, M_right, dr)]. *)
Definition basex_transform (rawdata M Mc M_left M_right : ndarray F) (dr : Q)
    : result (ndarray F) :=
  let* t := dot M_left rawdata in
  let* Ci := dot t M_right in
  let* t := dot Mc Ci in
  let* IM := dot t (transpose Mc) in
  let* s := truediv MAGIC_NUMBER dr in
  Ok (mscale IM s).

End Transform.

(** ** The disk cache: [get_basis_sets_cached] *)

Definition starts_with_sep (s : string) : bool :=
  match s with
  | String c _ => Ascii.eqb c "/"%char
  | EmptyString => false
  end.

Fixpoint ends_with_sep (s : string) : bool :=
  match s with
  | EmptyString => false
  | String c EmptyString => Ascii.eqb c "/"%char
  | String _ s' => ends_with_sep s'
  end.

(** [os.path.join(a, b)] (posix). *)
Definition os_path_join (a b : string) : string :=
  if starts_with_sep b then b
  else if bool_decide (a = "") || ends_with_sep a then a +:+ b
  else a +:+ "/" +:+ b.

(** ["basex_basis_{}_{}.npy".format(n, nbf)]. *)
Definition basis_name (n nbf : Z) : string :=
  "basex_basis_" +:+ pretty n +:+ "_" +:+ pretty nbf +:+ ".npy".

Section Cache.
Context {F : Type} {SF : Scalar F}.

(** [__version__] of the package. *)
Variable __version__ : string.

Definition os_path_exists (path : string) : io F bool :=
  fun w =>
    (mk_world (files w) (log w ++ [EvExists path]),
     Ok (match files w !! path with Some _ => true | None => false end)).

Definition np_load (path : string) : io F (list (pyobj F)) :=
  fun w =>
    (mk_world (files w) (log w ++ [EvLoad path]),
     match files w !! path with
     | Some (Saved items) => Ok items
     | Some (Unreadable fails_with_ValueError) => Raise (ValueError unreadable_file)
     | Some (Unreadable fails_with_other) => Raise IOError
     | None => Raise IOError
     end).

Definition np_save (path : string) (items : list (pyobj F)) : io F unit :=
  fun w => (mk_world (<[path := Saved items]> (files w)) (log w ++ [EvSave path]), Ok tt).

(** [a, b, c, d, e = items]. *)
Definition unpack5 {A} (items : list A) : result (A * A * A * A * A) :=
  match items with
  | [a; b; c; d; e] => Ok (a, b, c, d, e)
  | _ => Raise (ValueError unpack_mismatch)
  end.

(** [a, b, c, d = items]. *)
Definition unpack4 {A} (items : list A) : result (A * A * A * A) :=
  match items with
  | [a; b; c; d] => Ok (a, b, c, d)
  | _ => Raise (ValueError unpack_mismatch)
  end.

Definition bundle : Type := pyobj F * pyobj F * pyobj F * pyobj F.

(** The [try] statement of the lookup: the current encoding, and on a
    [ValueError] the legacy one; the names are bound to [M], [Mc],
    [M_left], [M_right] in this order. *)
Definition load_bundle (path_to_basis_file : string) : io F bundle :=
  except_ValueError
    (let! items := np_load path_to_basis_file in
     let! (M, Mc, M_left, M_right, M_version) := io_lift (unpack5 items) in
     io_ret (M, Mc, M_left, M_right))
    (let! items := np_load path_to_basis_file in
     let! (M_left, M_right, M, Mc) := io_lift (unpack4 items) in
     io_ret (M, Mc, M_left, M_right)).

(** The branch [if M is None:] of the lookup. *)
Definition synthesize_and_save (n nbf : Z) (basis_dir : option string) (verbose : bool)
    : io F bundle :=
  let! _ := emit (EvGenerate n nbf) in
  let! (M, Mc) := io_lift (generate_basis_sets n (given nbf) verbose) in
  let! (M_left, M_right) := io_lift (_get_left_right_matrices M Mc) in
  let! _ :=
    match basis_dir with
    | Some d =>
        np_save (os_path_join d (basis_name n nbf))
          [PyArray M; PyArray Mc; PyArray M_left; PyArray M_right; PyStr __version__]
    | None => io_ret tt
    end in
  io_ret (PyArray M, PyArray Mc, PyArray M_left, PyArray M_right).

(** [get_basis_sets_cached(n, nbf, basis_dir, verbose)]. *)
Definition get_basis_sets_cached (n : Z) (nbf : nbf_arg) (basis_dir : option string)
    (verbose : bool) : io F bundle :=
  let nbf := _nbf_default n nbf in
  let! cached :=
    match basis_dir with
    | Some d =>
        let path_to_basis_file := os_path_join d (basis_name n nbf) in
        let! found := os_path_exists path_to_basis_file in
        if found : bool then
          let! b := load_bundle path_to_basis_file in io_ret (Some b)
        else io_ret None
    | None => io_ret None
    end in
  match cached with
  | Some (PyNone, _, _, _) | None => synthesize_and_save n nbf basis_dir verbose
  | Some b => io_ret b
  end.

(** The object built by [BASEX.__init__]. *)
Record BASEX : Type := mk_BASEX {
  self_verbose : bool;
  self_calc_speeds : bool;
  self_dr : Q;
  self_n : Z;
  self_M : pyobj F;
  self_Mc : pyobj F;
  self_M_left : pyobj F;
  self_M_right : pyobj F;
}.

(** [BASEX.__init__(n, nbf, basis_dir, calc_speeds, dr, verbose)]. *)
Definition BASEX_init (n : Z) (nbf : nbf_arg) (basis_dir : option string)
    (calc_speeds : bool) (dr : Q) (verbose : bool) : io F BASEX :=
  let n := 2 * (n / 2) + 1 in
  let! (M, Mc, M_left, M_right) := get_basis_sets_cached n nbf basis_dir verbose in
  io_ret (mk_BASEX verbose calc_speeds dr n M Mc M_left M_right).

End Cache.

(** ** The legacy module [BASEX/core.py] *)

Section Legacy.
Context {F : Type} {SF : Scalar F}.

(** [generate_basis_sets] of the legacy package comes from its module
    [basis], which is not among the sources; it is a parameter here. *)
Variable basis_generate_basis_sets : Z -> Z -> bool -> result (ndarray F * ndarray F).

Record core_BASEX : Type := mk_core_BASEX {
  core_verbose : bool;
  core_calc_speeds : bool;
  core_n : Z;
  core_nbf : Z;
  core_left : pyobj F;
  core_right : pyobj F;
  core_M : pyobj F;
  core_Mc : pyobj F;
}.

(** [BASEX.__init__(n, nbf, basis_dir, verbose, calc_speeds)] of the
    legacy module: only the four-element encoding is read and written. *)
Definition core_BASEX_init (n nbf : Z) (basis_dir : string) (verbose calc_speeds : bool)
    : io F core_BASEX :=
  let n := 2 * (n / 2) + 1 in
  let path_to_basis_file := os_path_join basis_dir (basis_name n nbf) in
  let! found := os_path_exists path_to_basis_file in
  let! (left_, right_, M, Mc) :=
    if found : bool then
      let! items := np_load path_to_basis_file in
      io_lift (unpack4 items)
    else
      let! _ := emit (EvGenerate n nbf) in
      let! (M, Mc) := io_lift (basis_generate_basis_sets n nbf verbose) in
      let! (left_, right_) := io_lift (get_left_right_matrices M Mc) in
      let! _ := np_save path_to_basis_file
                  [PyArray left_; PyArray right_; PyArray M; PyArray Mc] in
      io_ret (PyArray left_, PyArray right_, PyArray M, PyArray Mc) in
  io_ret (mk_core_BASEX verbose calc_speeds n nbf left_ right_ M Mc).

(** [BASEX._basex_transform(rawdata)] of the legacy module, without the
    optional speed distribution. *)
Definition core_basex_transform (left_ right_ Mc rawdata : ndarray F)
    : result (ndarray F) :=
  let* t := dot left_ rawdata in
  let* Ci := dot t right_ in
  let* t := dot Mc Ci in
  dot t (transpose Mc).

End Legacy.

(** ** The design document's vocabulary *)


Section Specification.
Context {F : Type} {SF : Scalar F}.

(** A valid configuration: [size] odd, [1 <= basis_count <= size//2]. *)
Definition valid_config (size basis_count : Z) : Prop :=
  size mod 2 = 1 ∧ 1 ≤ basis_count ≤ size / 2.

Definition center (size : Z) : Z := size / 2 + 1.

(** [R2[i] = (i - center)^2] for [i = 1..size]. *)
Definition R2 (size i : Z) : Z := (i - center size) ^ 2.

(** The window half-width [max(32k - 4000, 4000)]. *)
Definition Delta (k : Z) : Z := Z.max (32 * k - 4000) 4000.

(** [exp(k^2 - 2 k^2 ln k + lnGamma(k^2 + 0.5) - lnGamma(0.5))]. *)
Definition angn (k : Z) : F :=
  fexp (of_Z (k * k) - of_Z (2 * (k * k)) * flog (of_Z k)
        + gammaln (of_Z (k * k) + lit (1 # 2)) - gammaln (lit (1 # 2)))%F.

(** [exp(k^2 - l^2 + 2 k^2 ln(l/k))], the quotient [l/k] taken in floating
    point as [(1.0*l)/k]. *)
Definition val (k l : Z) : F :=
  fexp (of_Z (k * k - l * l)
        + of_Z (2 * (k * k)) * flog (lit 1%Q * of_Z l / of_Z k))%F.

(** One term of the series: a single exponential of a sum of logarithms
    and log-Gamma values. *)
Definition series_term (k l p : Z) : F :=
  fexp (of_Z (k * k - l * l) - of_Z (k * k) * flog (of_Z (k * k))
        + of_Z p * flog (of_Z (l * l))
        + gammaln (of_Z (k * k + 1)) - gammaln (of_Z (p + 1))
        + gammaln (of_Z (k * k - p) + lit (1 # 2)) - gammaln (lit (1 # 2))
        - gammaln (of_Z (k * k - p + 1)))%F.

(** The integers of the closed interval [[lo, hi]], in increasing order. *)
Definition interval (lo hi : Z) : list Z := seqZ lo (hi - lo + 1).

(** The series over [p] in
    [[max(1, l^2 - Delta k), min(k^2 - 1, l^2 + Delta k)]]. *)
Definition series (k l : Z) : F :=
  fsum (series_term k l <$>
        interval (Z.max 1 (l * l - Delta k)) (Z.min (k * k - 1) (l * l + Delta k))).

(** [2 (val + angn exp(-l^2) + S)], the factor two on the right as in the
    source's [aux *= 2]. *)
Definition M_entry (k l : Z) : F :=
  ((val k l + angn k * fexp (of_Z (- (l * l))) + series k l) * of_Z 2)%F.

(** The array has the given shape and [f i j] at every position. *)
Definition agrees (a : ndarray F) (n m : Z) (f : Z -> Z -> F) : Prop :=
  Z.of_nat (shape0 a) = n ∧ Z.of_nat (shape1 a) = m ∧
  ∀ i j : nat, Z.of_nat i < n → Z.of_nat j < m →
    entry a i j = Some (f (Z.of_nat i) (Z.of_nat j)).

(** [M] while the synthesizer runs, for [n = 2h+1]: columns [0..j] are
    final, and of column [j+1] the center row and the rows at distance at
    most [t] from it are written (none when [t < 0]). *)
Definition M_stage (h j t : Z) (i c : Z) : F :=
  let d := Z.abs (i - h) in
  if decide (c = 0) then (of_Z 2 * fexp (of_Z (- (1 + i - (h + 1)) ^ 2)))%F
  else if decide (c ≤ j ∨ (c = j + 1 ∧ d ≤ t)) then
    if decide (d = 0) then (of_Z 2 * angn c)%F else M_entry c d
  else lit 0%Q.

(** [Mc] at the same stage; its center row is never written for a column
    [k >= 1]. *)
Definition Mc_stage (h j t : Z) (i c : Z) : F :=
  let d := Z.abs (i - h) in
  if decide (c = 0) then fexp (of_Z (- (1 + i - (h + 1)) ^ 2))
  else if decide (d ≠ 0 ∧ (c ≤ j ∨ (c = j + 1 ∧ d ≤ t))) then val c d
  else lit 0%Q.

(** The exceptions of the two configuration checks. *)
Definition configuration_error (e : exn) : Prop :=
  e = ValueError n_must_be_odd ∨ e = ValueError nbf_too_large.

(** The exceptions of the array operations and of the progress output. *)
Definition library_error (e : exn) : Prop :=
  e = IndexError \/ e = ValueError negative_dimensions \/
  e = ValueError shapes_not_aligned \/ e = UnboundLocalError.

(** The shape of a bundle for [size] and [basis_count], and of an image
    for it. *)
Definition has_shape (a : ndarray F) (n m : nat) : Prop :=
  shape0 a = n ∧ shape1 a = m.

Definition bundle_shapes (M Mc M_left M_right : ndarray F) (size basis_count : nat) : Prop :=
  has_shape M size basis_count ∧ has_shape Mc size basis_count ∧
  has_shape M_left basis_count size ∧ has_shape M_right size basis_count.

(** The two encodings of a stored bundle, read into the names [M], [Mc],
    [M_left], [M_right]. *)
Definition decode_current (items : list (pyobj F)) : option (@bundle F) :=
  match items with
  | [M; Mc; OpLeft; OpRight; format_version] => Some (M, Mc, OpLeft, OpRight)
  | _ => None
  end.

Definition decode_legacy (items : list (pyobj F)) : option (@bundle F) :=
  match items with
  | [OpLeft; OpRight; M; Mc] => Some (M, Mc, OpLeft, OpRight)
  | _ => None
  end.

(** A file that holds a bundle in one of the two encodings, with an
    actual object (not [None]) for [M]. *)
Definition loadable (f : option (stored F)) (b : @bundle F) : Prop :=
  b.1.1.1 ≠ PyNone ∧
  ∃ items, f = Some (Saved items) ∧
    (decode_current items = Some b ∨
     (decode_current items = None ∧ decode_legacy items = Some b)).

(** A file that exists and is readable in neither encoding. *)
Definition unreadable_in_both (f : option (stored F)) : Prop :=
  match f with
  | Some (Unreadable _) => True
  | Some (Saved items) => decode_current items = None ∧ decode_legacy items = None
  | None => False
  end.

(** A file whose load under the current encoding fails with a
    [ValueError]. *)
Definition current_load_fails_with_ValueError (f : option (stored F)) : Prop :=
  match f with
  | Some (Unreadable fails_with_ValueError) => True
  | Some (Saved items) => decode_current items = None
  | _ => False
  end.

(** The world after some more calls that left the files alone. *)
Definition logged (w : world F) (evs : list event) : world F :=
  mk_world (files w) (log w ++ evs).

(** The cache file of a configuration. *)
Definition path_to_basis_file (d : string) (n nbf : Z) : string :=
  os_path_join d (basis_name n nbf).

Definition is_generate (e : event) : bool :=
  match e with
  | EvGenerate _ _ => true
  | _ => false
  end.

(** How often the synthesizer was invoked. *)
Fixpoint synthesized (evs : list event) : nat :=
  match evs with
  | [] => 0
  | e :: evs' => ((if is_generate e then 1 else 0) + synthesized evs')%nat
  end.

(** The event is about the cache file of [(n, nbf)] under [basis_dir], or
    a synthesis for [(n, nbf)]. *)
Definition event_for (basis_dir : option string) (n nbf : Z) (e : event) : Prop :=
  match e with
  | EvGenerate n' nbf' => n' = n ∧ nbf' = nbf
  | EvExists p | EvLoad p | EvSave p =>
      ∃ d, basis_dir = Some d ∧ p = os_path_join d (basis_name n nbf)
  end.

End Specification.

(** ** Slices, and [center_image] of the legacy module *)

Section Slices.
Context {F : Type} {SF : Scalar F}.

(** One bound of a slice of step one on an axis of length [len]: a
    negative bound counts from the end, and both are clipped to the
    axis. *)
Definition adjust (len : nat) (i : Z) : nat :=
  Z.to_nat (if i <? 0 then Z.max (i + Z.of_nat len) 0 else Z.min i (Z.of_nat len)).

(** [start:stop] on an axis of length [len]: the first index and the
    number of indices. *)
Definition slice (len : nat) (start stop : Z) : nat * nat :=
  (adjust len start, (adjust len stop - adjust len start)%nat).

(** [a[r0:r1, c0:c1]]. *)
Definition getslice (a : ndarray F) (r0 r1 c0 c1 : Z) : ndarray F :=
  let '(r, h) := slice (shape0 a) r0 r1 in
  let '(c, w) := slice (shape1 a) c0 c1 in
  mk_ndarray h w ((fun row => take w (drop c row)) <$> take h (drop r (rows a))).

(** An axis of length [dn] can be broadcast to one of length [n]. *)
Definition broadcastable (dn n : nat) : bool := (dn =? n)%nat || (dn =? 1)%nat.

(** [a[r0:r1, c0:c1] = d] for a two-dimensional [d], which is broadcast
    to the shape of the slice or refused. *)
Definition setslice (a : ndarray F) (r0 r1 c0 c1 : Z) (d : ndarray F) : result (ndarray F) :=
  let '(r, h) := slice (shape0 a) r0 r1 in
  let '(c, w) := slice (shape1 a) c0 c1 in
  if broadcastable (shape0 d) h && broadcastable (shape1 d) w then
    Ok (mk_ndarray (shape0 a) (shape1 a)
          (imap (fun i row =>
                   imap (fun j x =>
                           if (r <=? i)%nat && (i <? r + h)%nat &&
                              (c <=? j)%nat && (j <? c + w)%nat
                           then default x
                                  (entry d (if (shape0 d =? 1)%nat then 0 else i - r)%nat
                                           (if (shape1 d =? 1)%nat then 0 else j - c)%nat)
                           else x) row)
                (rows a)))
  else Raise (ValueError shapes_not_aligned).

(** A float converted to an integer by [np.asarray(..., dtype='int')]:
    the fraction is dropped. *)
Definition trunc (q : Q) : Z := Z.quot (Qnum q) (Z.pos (Qden q)).

(** [center_image(data, center, n)] of [BASEX/core.py]; [center] is
    [(x, y)]. *)
Definition center_image (data : ndarray F) (center : Q * Q) (n : Z) : result (ndarray F) :=
  let Nh := Z.of_nat (shape0 data) in
  let Nw := Z.of_nat (shape1 data) in
  let cx := trunc center.1 in
  let cy := trunc center.2 in
  let* im := np_zeros (2 * n) (2 * n) in
  let* im := setslice im (n - cy) (n - cy + Nh) (n - cx) (n - cx + Nw) data in
  let n_2 := n / 2 in
  Ok (getslice im n_2 (n + n_2) n_2 (n + n_2)).

End Slices.

(** ** [BASEX.__call__] of the legacy module *)

Section LegacyCall.
Context {F : Type} {SF : Scalar F}.

(** The filters of [scipy.ndimage]. *)
Variable median_filter : ndarray F -> Z -> ndarray F.
Variable gaussian_filter : ndarray F -> Q -> ndarray F.

(** [BASEX.calculate_speeds], which rests on the spline interpolation of
    [scipy.ndimage.map_coordinates]; it is a parameter here. *)
Variable calculate_speeds : ndarray F -> result (list F).

(** [BASEX._basex_transform(rawdata)] with its optional speed
    distribution; the attributes it reads are arrays. *)
Definition core_basex_transform_speeds (self_calc_speeds : bool)
    (self_left self_right self_Mc rawdata : ndarray F)
    : result (ndarray F * option (list F)) :=
  let* IM := core_basex_transform self_left self_right self_Mc rawdata in
  if self_calc_speeds then
    let* speeds := calculate_speeds IM in Ok (IM, Some speeds)
  else Ok (IM, None).

(** [BASEX.__call__(data, center, median_size, gaussian_blur, post_median,
    symmetrize)] of [BASEX/core.py]. *)
Definition core_BASEX_call (self_n : Z) (self_calc_speeds : bool)
    (self_left self_right self_Mc : ndarray F)
    (data : ndarray F) (center : Q * Q) (median_size : Z) (gaussian_blur : Q)
    (post_median : Z) (symmetrize : bool) : result (ndarray F * option (list F)) :=
  let* image := center_image data center self_n in
  if symmetrize then Raise NotImplementedError else
  let image := if 0 <? median_size then median_filter image median_size else image in
  let image :=
    if negb (Qle_bool gaussian_blur 0) then gaussian_filter image gaussian_blur else image in
  let* (recon, speeds) :=
    core_basex_transform_speeds self_calc_speeds self_left self_right self_Mc image in
  let recon := if 0 <? post_median then median_filter recon post_median else recon in
  Ok (recon, speeds).

End LegacyCall.

(** ** [BASEX.__call__] of [abel/basex.py] *)

(** What the call is given and what it returns: a one-dimensional or a
    two-dimensional array. *)
Inductive pydata (F : Type) : Type :=
| Data1 (v : list F)
| Data2 (a : ndarray F).
Arguments Data1 {F} _.
Arguments Data2 {F} _.

(** The exceptions of the call: its own [ValueError] on the shape of the
    data, and the ones it lets through. *)
Inductive call_exn : Type :=
| wrong_input_shape (shape : nat * nat)
| raised (e : exn).

Inductive call_result (A : Type) : Type :=
| Returns (a : A)
| Raises (e : call_exn).
Arguments Returns {A} _.
Arguments Raises {A} _.

Definition call_of_result {A} (r : result A) : call_result A :=
  match r with
  | Ok a => Returns a
  | Raise e => Raises (raised e)
  end.

Definition call_bind {A B} (r : call_result A) (k : A -> call_result B) : call_result B :=
  match r with
  | Returns a => k a
  | Raises e => Raises e
  end.

Notation "'let+' x ':=' e 'in' k" := (call_bind e (fun x => k))
  (at level 10, x pattern, e at level 100, k at level 200).

Section Call.
Context {F : Type} {SF : Scalar F}.

(** The value given as [center], read only by [center_image]; the speed
    distribution, made only by [calculate_speeds]. *)
Context {C S : Type}.

(** [center_image] and [calculate_speeds] of the module [tools], which is
    not among the sources, and the filters of [scipy.ndimage]. *)
Variable tools_center_image : ndarray F -> C -> Z -> Z -> result (ndarray F).
Variable tools_calculate_speeds : pydata F -> Z -> result S.
Variable median_filter : ndarray F -> Z -> ndarray F.
Variable gaussian_filter : ndarray F -> Q -> ndarray F.

(** [np.atleast_2d(data)]. *)
Definition np_atleast_2d (data : pydata F) : ndarray F :=
  match data with
  | Data1 v => mk_ndarray 1 (length v) [v]
  | Data2 a => a
  end.

(** [recon[0, :]]. *)
Definition row0 (a : ndarray F) : result (list F) :=
  let* _ := index (shape0 a) 0 in
  match rows a !! 0%nat with
  | Some r => Ok r
  | None => Raise IndexError
  end.

(** [BASEX.__call__(data, center, median_size, gaussian_blur, post_median,
    symmetrize)]; the attributes it reads are arrays. *)
Definition BASEX_call (self_n : Z) (self_dr : Q) (self_calc_speeds : bool)
    (self_M self_Mc self_M_left self_M_right : ndarray F)
    (data : pydata F) (center : C) (median_size : Z) (gaussian_blur : Q)
    (post_median : Z) (symmetrize : bool) : call_result (pydata F * option S) :=
  let data := np_atleast_2d data in
  let+ ndim :=
    if (shape0 data =? 1)%nat then Returns 1
    else if (shape1 data =? 1)%nat then Raises (wrong_input_shape (shape0 data, shape1 data))
    else Returns 2 in
  let+ image := call_of_result (tools_center_image data center self_n ndim) in
  if symmetrize then Raises (raised NotImplementedError) else
  let image := if 0 <? median_size then median_filter image median_size else image in
  let image :=
    if negb (Qle_bool gaussian_blur 0) then gaussian_filter image gaussian_blur else image in
  let+ recon :=
    call_of_result (basex_transform image self_M self_Mc self_M_left self_M_right self_dr) in
  let recon := if 0 <? post_median then median_filter recon post_median else recon in
  let+ recon :=
    if ndim =? 1 then
      let+ r := call_of_result (row0 recon) in Returns (Data1 r)
    else Returns (Data2 recon) in
  if self_calc_speeds then
    let+ speeds := call_of_result (tools_calculate_speeds recon self_n) in
    Returns (recon, Some speeds)
  else Returns (recon, None).

End Call.

(** ** More vocabulary *)

(** The string holds no [c]. *)
Fixpoint no_char (c : ascii) (s : string) : bool :=
  match s with
  | EmptyString => true
  | String a s' => negb (Ascii.eqb a c) && no_char c s'
  end.

(** Every position within the shape holds an entry. *)
Definition well_formed {F} (a : ndarray F) : Prop :=
  forall i j : nat, (i < shape0 a)%nat -> (j < shape1 a)%nat -> is_Some (entry a i j).

(** What the synthesizer raises for a size [n], a basis count [k] and the
    [verbose] flag; [None] when it returns. *)
Definition synthesis_outcome (n k : Z) (verbose : bool) : option exn :=
  if n mod 2 =? 0 then Some (ValueError n_must_be_odd)
  else if n / 2 <? k then Some (ValueError nbf_too_large)
  else if k <? 0 then Some (ValueError negative_dimensions)
  else if k =? 0 then Some IndexError
  else if verbose && (k =? 1) then Some UnboundLocalError
  else None.

(** No cache file for the configuration under the directory, or no
    directory at all. *)
Definition fresh {F} (w : world F) (basis_dir : option string) (n nbf : Z) : Prop :=
  match basis_dir with
  | Some d => files w !! path_to_basis_file d n nbf = None
  | None => True
  end.

(** ** Sample inputs *)

(** An array of ones, over the symbolic scalars. *)
Definition ones (n m : nat) : ndarray sym := tabulate n m (fun _ _ => SLit 1).

(** No cache file yet. *)
Definition empty_world : world sym := mk_world ∅ [].

(** A cache file for [(3, 1)] that holds no object at all. *)
Definition truncated_world : world sym :=
  mk_world {[ "./basex_basis_3_1.npy" := Saved [] ]} [].

(** A cache file for [(3, 1)] on which [np.load] raises something other
    than a [ValueError]. *)
Definition damaged_world : world sym :=
  mk_world {[ "./basex_basis_3_1.npy" := Unreadable fails_with_other ]} [].

(** A cache file for [(3, 1)] in the legacy encoding. *)
Definition legacy_world : world sym :=
  mk_world {[ "./basex_basis_3_1.npy" :=
                Saved [PyArray (ones 1 3); PyArray (ones 3 1); PyArray (ones 3 1);
                       PyArray (ones 3 1)] ]} [].

(** A 2 x 2 image with four different pixels. *)
Definition pixels : ndarray sym := tabulate 2 2 (fun i j => SInt (Z.of_nat (2 * i + j))).

(** The synthesizer of [abel/basex.py] in the place of the legacy
    module's. *)
Definition synth_sym (n nbf : Z) (verbose : bool) : result (ndarray sym * ndarray sym) :=
  generate_basis_sets n (given nbf) verbose.

(** * Proofs *)

(** ** The result monad and loops *)

Lemma foldM_invariant {A B} (P : nat -> B -> Prop) (body : B -> A -> result B)
    (xs : list A) (b : B) :
  P 0%nat b ->
  (forall i x b, xs !! i = Some x -> P i b -> exists b', body b x = Ok b' /\ P (S i) b') ->
  exists b', foldM body xs b = Ok b' /\ P (length xs) b'.
Proof.
  revert P b. induction xs as [|x xs IH]; intros P b H0 Hstep; simpl.
  - exists b. split; [reflexivity | exact H0].
  - destruct (Hstep 0%nat x b eq_refl H0) as (b' & -> & H1). simpl.
    apply (IH (fun i => P (S i))); [exact H1 |].
    intros i y b0 Hy Hi. apply (Hstep (S i)); assumption.
Qed.

Lemma foldM_raises {A B} (Q : exn -> Prop) (body : B -> A -> result B)
    (xs : list A) (b : B) (e : exn) :
  (forall b x e, body b x = Raise e -> Q e) ->
  foldM body xs b = Raise e -> Q e.
Proof.
  intros Hbody. revert b. induction xs as [|x xs IH]; intros b; simpl.
  - discriminate.
  - destruct (body b x) as [b' | e'] eqn:Hb; simpl.
    + apply IH.
    + intros [= <-]. eapply Hbody, Hb.
Qed.

Lemma bind_raises {A B} (Q : exn -> Prop) (r : result A) (k : A -> result B) (e : exn) :
  (forall e, r = Raise e -> Q e) ->
  (forall a e, k a = Raise e -> Q e) ->
  bind r k = Raise e -> Q e.
Proof.
  intros Hr Hk. destruct r as [a | e']; simpl.
  - apply Hk.
  - intros [= <-]. apply Hr. reflexivity.
Qed.

Lemma arange_lookup (a b : Z) (i : nat) (x : Z) :
  arange a b !! i = Some x -> x = a + Z.of_nat i /\ a + Z.of_nat i < b.
Proof.
  unfold arange. rewrite lookup_seqZ. lia.
Qed.

Lemma arange_lookup_lt (a b : Z) (i : nat) :
  a + Z.of_nat i < b -> arange a b !! i = Some (a + Z.of_nat i).
Proof.
  intros H. unfold arange. apply lookup_seqZ_lt. lia.
Qed.

Lemma arange_length (a b : Z) : Z.of_nat (length (arange a b)) = Z.max 0 (b - a).
Proof.
  unfold arange. rewrite length_seqZ. lia.
Qed.

(** ** Arrays *)

Section ArrayFacts.
Context {F : Type} {SF : Scalar F}.

Lemma index_in_range (len : nat) (i : Z) :
  0 <= i < Z.of_nat len -> index len i = Ok (Z.to_nat i).
Proof.
  intros H. unfold index.
  destruct (Z.leb_spec 0 i); [| lia]. destruct (Z.ltb_spec i (Z.of_nat len)); [| lia].
  reflexivity.
Qed.

Lemma index_raises (len : nat) (i : Z) (e : exn) :
  index len i = Raise e -> e = IndexError.
Proof.
  unfold index. repeat case_match; congruence.
Qed.

Lemma entry_upd_eq (a : ndarray F) (i j : nat) (v x : F) :
  entry a i j = Some x -> entry (upd a i j v) i j = Some v.
Proof.
  unfold entry, upd. simpl. rewrite list_lookup_alter_eq.
  destruct (rows a !! i) as [r |]; simpl; [| discriminate].
  intros Hx. apply list_lookup_insert_eq. eapply lookup_lt_Some, Hx.
Qed.

Lemma entry_upd_ne (a : ndarray F) (i j i' j' : nat) (v : F) :
  i' <> i \/ j' <> j -> entry (upd a i j v) i' j' = entry a i' j'.
Proof.
  unfold entry, upd. simpl. intros Hne.
  destruct (decide (i' = i)) as [-> | Hi].
  - rewrite list_lookup_alter_eq. destruct (rows a !! i) as [r |]; simpl; [| reflexivity].
    apply list_lookup_insert_ne. destruct Hne; congruence.
  - rewrite list_lookup_alter_ne by congruence. reflexivity.
Qed.

Lemma agrees_ext (a : ndarray F) (n m : Z) (f g : Z -> Z -> F) :
  agrees a n m f ->
  (forall i j, 0 <= i < n -> 0 <= j < m -> f i j = g i j) ->
  agrees a n m g.
Proof.
  intros (H0 & H1 & He) Hfg. repeat split; try assumption.
  intros i j Hi Hj. rewrite He by assumption. f_equal. apply Hfg; lia.
Qed.

Lemma agrees_setitem (a : ndarray F) (n m : Z) (f : Z -> Z -> F) (i j : Z) (v : F) :
  agrees a n m f -> 0 <= i < n -> 0 <= j < m ->
  exists a', setitem a i j v = Ok a' /\
    agrees a' n m (fun i' j' => if decide (i' = i /\ j' = j) then v else f i' j').
Proof.
  intros (H0 & H1 & He) Hi Hj.
  exists (upd a (Z.to_nat i) (Z.to_nat j) v). split.
  - unfold setitem. rewrite !index_in_range by lia. reflexivity.
  - repeat split; try assumption.
    intros i' j' Hi' Hj'. case_decide as Hd.
    + destruct Hd as [<- <-]. rewrite !Nat2Z.id.
      eapply entry_upd_eq. apply He; assumption.
    + rewrite entry_upd_ne by lia. apply He; assumption.
Qed.

Lemma agrees_getitem (a : ndarray F) (n m : Z) (f : Z -> Z -> F) (i j : Z) :
  agrees a n m f -> 0 <= i < n -> 0 <= j < m -> getitem a i j = Ok (f i j).
Proof.
  intros (H0 & H1 & He) Hi Hj. unfold getitem.
  rewrite !index_in_range by lia. simpl.
  rewrite He by lia. rewrite !Z2Nat.id by lia. reflexivity.
Qed.

Lemma agrees_zeros (n m : Z) :
  0 <= n -> 0 <= m ->
  exists a, np_zeros n m = Ok a /\ agrees a n m (fun _ _ => lit 0%Q).
Proof.
  intros Hn Hm. unfold np_zeros.
  destruct (Z.ltb_spec n 0); [lia |]. destruct (Z.ltb_spec m 0); [lia |]. simpl.
  eexists. split; [reflexivity |]. unfold agrees, entry. simpl.
  repeat split; try lia.
  intros i j Hi Hj. rewrite lookup_replicate_2 by lia. simpl.
  rewrite lookup_replicate_2 by lia. reflexivity.
Qed.

Lemma agrees_setcol (a : ndarray F) (n m : Z) (f : Z -> Z -> F) (v : list F) (g : Z -> F) :
  agrees a n m f -> 0 < m ->
  Z.of_nat (length v) = n ->
  (forall i : nat, Z.of_nat i < n -> v !! i = Some (g (Z.of_nat i))) ->
  exists a', setcol a 0 v = Ok a' /\
    agrees a' n m (fun i j => if decide (j = 0) then g i else f i j).
Proof.
  intros (H0 & H1 & He) Hm Hlen Hv. unfold setcol.
  rewrite index_in_range by lia. simpl.
  destruct (Nat.eqb_spec (length v) (shape0 a)) as [_ | Hne]; [| lia].
  eexists. split; [reflexivity |]. unfold agrees, entry. simpl.
  repeat split; try assumption.
  intros i j Hi Hj. rewrite lookup_zip_with.
  specialize (He i j Hi Hj). unfold entry in He.
  destruct (rows a !! i) as [r |] eqn:Hr; simpl in *; [| discriminate].
  rewrite (Hv i Hi). simpl. case_decide as Hd.
  - replace j with 0%nat by lia. apply list_lookup_insert_eq.
    replace j with 0%nat in He by lia. eapply lookup_lt_Some, He.
  - rewrite list_lookup_insert_ne by lia. exact He.
Qed.

End ArrayFacts.

(** ** The synthesizer's loops *)

Section SynthesizerFacts.
Context {F : Type} {SF : Scalar F}.

(** The loop bodies, with the expressions of the source named as the
    design document names them. *)
Lemma k_body_unfold (n Rm : Z) (delta : list Z) (M Mc : ndarray F) (k : Z) :
  k_body n Rm (gammaln (lit (1 # 2))) delta (M, Mc) k =
    (let* M := setitem M (Rm - 1) k (of_Z 2 * angn k)%F in
     foldM (l_body Rm k (k * k) (flog (of_Z (k * k))) (angn k) (gammaln (lit (1 # 2))) delta)
       (arange 1 (n - Rm + 1)) (M, Mc)).
Proof. reflexivity. Qed.

Lemma l_body_unfold (Rm k : Z) (a : F) (delta : list Z) (M Mc : ndarray F) (l : Z) :
  l_body Rm k (k * k) (flog (of_Z (k * k))) a (gammaln (lit (1 # 2))) delta (M, Mc) l =
    (let* Mc := setitem Mc (l - 1 + Rm) k (val k l) in
     let* Mc := setitem Mc (Rm - l - 1) k (val k l) in
     let* mc0 := getitem Mc (l + Rm - 1) 0 in
     let* delta_k := getitem1 delta k in
     let S :=
       fsum (series_term k l <$>
             arange (Z.max 1 (l * l - delta_k)) (Z.min (k * k - 1) (l * l + delta_k) + 1)) in
     let* M := setitem M (l + Rm - 1) k ((val k l + a * mc0 + S) * of_Z 2)%F in
     let* M := setitem M (Rm - l - 1) k ((val k l + a * mc0 + S) * of_Z 2)%F in
     Ok (M, Mc)).
Proof. reflexivity. Qed.

Lemma source_series (k l : Z) :
  fsum (series_term k l <$>
        arange (Z.max 1 (l * l - Z.max (k * 32 - MAX_BASIS_SET_OFFSET) MAX_BASIS_SET_OFFSET))
               (Z.min (k * k - 1)
                  (l * l + Z.max (k * 32 - MAX_BASIS_SET_OFFSET) MAX_BASIS_SET_OFFSET) + 1))
  = series k l.
Proof.
  unfold series, interval, arange, Delta, MAX_BASIS_SET_OFFSET.
  rewrite (Z.mul_comm k 32).
  set (lo := Z.max 1 _). set (hi := Z.min _ _).
  replace (hi + 1 - lo) with (hi - lo + 1) by lia.
  reflexivity.
Qed.

Lemma delta_getitem (nbf k : Z) :
  0 <= k < nbf ->
  getitem1 ((fun i => Z.max (i * 32 - MAX_BASIS_SET_OFFSET) MAX_BASIS_SET_OFFSET) <$>
            arange 0 nbf) k
  = Ok (Z.max (k * 32 - MAX_BASIS_SET_OFFSET) MAX_BASIS_SET_OFFSET).
Proof.
  intros Hk. unfold getitem1.
  rewrite index_in_range by (rewrite length_fmap, arange_length; lia). simpl.
  rewrite list_lookup_fmap, (arange_lookup_lt 0 nbf (Z.to_nat k)) by lia. simpl.
  rewrite Z2Nat.id by lia. reflexivity.
Qed.

(** One pass of the loop over [l] moves both arrays one stage on. *)
Lemma l_body_stage (h nbf j l : Z) (M Mc : ndarray F) :
  0 <= j -> j + 1 < nbf -> 1 <= l <= h ->
  agrees M (2 * h + 1) nbf (M_stage h j (l - 1)) ->
  agrees Mc (2 * h + 1) nbf (Mc_stage h j (l - 1)) ->
  exists M' Mc',
    l_body (h + 1) (j + 1) ((j + 1) * (j + 1)) (flog (of_Z ((j + 1) * (j + 1))))
      (angn (j + 1)) (gammaln (lit (1 # 2)))
      ((fun i => Z.max (i * 32 - MAX_BASIS_SET_OFFSET) MAX_BASIS_SET_OFFSET) <$>
       arange 0 nbf) (M, Mc) l = Ok (M', Mc') /\
    agrees M' (2 * h + 1) nbf (M_stage h j l) /\
    agrees Mc' (2 * h + 1) nbf (Mc_stage h j l).
Proof.
  intros Hj Hnbf Hl HM HMc. rewrite l_body_unfold.
  edestruct (agrees_setitem Mc _ _ _ (l - 1 + (h + 1)) (j + 1) (val (j + 1) l) HMc)
    as (Mc1 & E1 & A1); [lia | lia |].
  rewrite E1. cbn [bind].
  edestruct (agrees_setitem Mc1 _ _ _ (h + 1 - l - 1) (j + 1) (val (j + 1) l) A1)
    as (Mc2 & E2 & A2); [lia | lia |].
  rewrite E2. cbn [bind].
  rewrite (agrees_getitem Mc2 _ _ _ (l + (h + 1) - 1) 0 A2) by lia. cbn [bind].
  rewrite delta_getitem by lia. cbn [bind]. cbv zeta.
  rewrite source_series.
  assert (Hmc0 :
    (if decide (l + (h + 1) - 1 = h + 1 - l - 1 /\ 0 = j + 1) then val (j + 1) l
     else if decide (l + (h + 1) - 1 = l - 1 + (h + 1) /\ 0 = j + 1) then val (j + 1) l
     else Mc_stage h j (l - 1) (l + (h + 1) - 1) 0) = fexp (of_Z (- (l * l)))).
  { repeat case_decide; try lia. unfold Mc_stage. case_decide; [| lia].
    do 2 f_equal. lia. }
  rewrite Hmc0. fold (M_entry (j + 1) l).
  edestruct (agrees_setitem M _ _ _ (l + (h + 1) - 1) (j + 1) (M_entry (j + 1) l) HM)
    as (M1 & E3 & A3); [lia | lia |].
  rewrite E3. cbn [bind].
  edestruct (agrees_setitem M1 _ _ _ (h + 1 - l - 1) (j + 1) (M_entry (j + 1) l) A3)
    as (M2 & E4 & A4); [lia | lia |].
  rewrite E4. cbn [bind].
  exists M2, Mc2. split; [reflexivity |]. split.
  - eapply agrees_ext; [exact A4 |]. intros i c Hi Hc. cbv beta.
    unfold M_stage. cbv zeta.
    repeat case_decide; try lia; try reflexivity;
      destruct_and?; subst c; (replace (Z.abs (i - h)) with l by lia); reflexivity.
  - eapply agrees_ext; [exact A2 |]. intros i c Hi Hc. cbv beta.
    unfold Mc_stage. cbv zeta.
    repeat case_decide; try lia; try reflexivity;
      destruct_and?; subst c; (replace (Z.abs (i - h)) with l by lia); reflexivity.
Qed.

End SynthesizerFacts.

Section SynthesizerLoops.
Context {F : Type} {SF : Scalar F}.

(** One pass of the loop over [k] completes one more column. *)
Lemma k_body_stage (n h nbf j : Z) (M Mc : ndarray F) :
  n = 2 * h + 1 -> 0 <= h -> 0 <= j -> j + 1 < nbf ->
  agrees M n nbf (M_stage h j (-1)) ->
  agrees Mc n nbf (Mc_stage h j (-1)) ->
  exists M' Mc',
    k_body n (h + 1) (gammaln (lit (1 # 2)))
      ((fun i => Z.max (i * 32 - MAX_BASIS_SET_OFFSET) MAX_BASIS_SET_OFFSET) <$>
       arange 0 nbf) (M, Mc) (j + 1) = Ok (M', Mc') /\
    agrees M' n nbf (M_stage h (j + 1) (-1)) /\
    agrees Mc' n nbf (Mc_stage h (j + 1) (-1)).
Proof.
  intros -> Hh Hj Hnbf HM HMc. rewrite k_body_unfold.
  edestruct (agrees_setitem M _ _ _ (h + 1 - 1) (j + 1) (of_Z 2 * angn (j + 1))%F HM)
    as (M1 & E1 & A1); [lia | lia |].
  rewrite E1. cbn [bind].
  assert (HM0 : agrees M1 (2 * h + 1) nbf (M_stage h j 0)).
  { eapply agrees_ext; [exact A1 |]. intros i c Hi Hc. cbv beta.
    unfold M_stage. cbv zeta.
    repeat case_decide; try lia; try reflexivity.
    destruct_and?. subst c. reflexivity. }
  assert (HMc0 : agrees Mc (2 * h + 1) nbf (Mc_stage h j 0)).
  { eapply agrees_ext; [exact HMc |]. intros i c Hi Hc.
    unfold Mc_stage. cbv zeta. repeat case_decide; try lia; reflexivity. }
  destruct (foldM_invariant
              (fun t (st : ndarray F * ndarray F) =>
                 agrees st.1 (2 * h + 1) nbf (M_stage h j (Z.of_nat t)) /\
                 agrees st.2 (2 * h + 1) nbf (Mc_stage h j (Z.of_nat t)))
              (l_body (h + 1) (j + 1) ((j + 1) * (j + 1))
                 (flog (of_Z ((j + 1) * (j + 1)))) (angn (j + 1)) (gammaln (lit (1 # 2)))
                 ((fun i => Z.max (i * 32 - MAX_BASIS_SET_OFFSET) MAX_BASIS_SET_OFFSET) <$>
                  arange 0 nbf))
              (arange 1 (2 * h + 1 - (h + 1) + 1)) (M1, Mc))
    as ([M' Mc'] & E & AM & AMc).
  - split; assumption.
  - intros t l [M2 Mc2] Hl [AM AMc]. simpl in AM, AMc.
    apply arange_lookup in Hl as [-> Ht].
    destruct (l_body_stage h nbf j (1 + Z.of_nat t) M2 Mc2) as (M3 & Mc3 & E3 & AM3 & AMc3);
      try lia.
    + replace (1 + Z.of_nat t - 1) with (Z.of_nat t) by lia. exact AM.
    + replace (1 + Z.of_nat t - 1) with (Z.of_nat t) by lia. exact AMc.
    + exists (M3, Mc3). split; [exact E3 |]. simpl.
      replace (Z.of_nat (S t)) with (1 + Z.of_nat t) by lia. split; assumption.
  - exists M', Mc'. split; [exact E |]. simpl in AM, AMc.
    assert (Hlen : Z.of_nat (length (arange 1 (2 * h + 1 - (h + 1) + 1))) = h)
      by (rewrite arange_length; lia).
    rewrite Hlen in AM, AMc. split.
    + eapply agrees_ext; [exact AM |]. intros i c Hi Hc.
      unfold M_stage. cbv zeta. repeat case_decide; try lia; reflexivity.
    + eapply agrees_ext; [exact AMc |]. intros i c Hi Hc.
      unfold Mc_stage. cbv zeta. repeat case_decide; try lia; reflexivity.
Qed.

(** For a valid configuration the synthesizer returns the two arrays in
    their final stage.  With [verbose] set and a single basis function it
    raises instead, on the unbound loop variable of the last progress
    line. *)
Lemma generate_basis_sets_final (size basis_count : Z) (nbf : nbf_arg) (verbose : bool) :
  valid_config size basis_count ->
  _nbf_default size nbf = basis_count ->
  verbose = false \/ 1 < basis_count ->
  exists M Mc,
    generate_basis_sets size nbf verbose = Ok (M, Mc) /\
    agrees M size basis_count (M_stage (size / 2) (basis_count - 1) (-1)) /\
    agrees Mc size basis_count (Mc_stage (size / 2) (basis_count - 1) (-1)).
Proof.
  intros [Hodd Hbc] Hnbf Hv. unfold generate_basis_sets. rewrite Hnbf.
  set (h := size / 2) in *.
  assert (Hn : size = 2 * h + 1) by (unfold h; rewrite <- Hodd; apply Z.div_mod; lia).
  rewrite Hodd. simpl (1 =? 0).  cbv iota.
  destruct (Z.ltb_spec h basis_count) as [? | _]; [lia |].
  destruct (agrees_zeros size basis_count) as (M0 & EM0 & AM0); [lia | lia |].
  rewrite EM0. cbn [bind].
  set (R2s := (fun i => (i - (h + 1)) ^ 2) <$> arange 1 (size + 1)).
  assert (HR2 : forall i : nat, Z.of_nat i < size ->
            R2s !! i = Some ((1 + Z.of_nat i - (h + 1)) ^ 2)).
  { intros i Hi. unfold R2s. rewrite list_lookup_fmap, arange_lookup_lt by lia.
    reflexivity. }
  assert (HR2len : Z.of_nat (length R2s) = size).
  { unfold R2s. rewrite length_fmap, arange_length. lia. }
  edestruct (agrees_setcol M0 size basis_count _
               ((fun r => fmul (of_Z 2) (fexp (of_Z (- r)))) <$> R2s)
               (fun i => fmul (of_Z 2) (fexp (of_Z (- (1 + i - (h + 1)) ^ 2)))) AM0)
    as (M1 & EM1 & AM1); [lia | by rewrite length_fmap | |].
  { intros i Hi. rewrite list_lookup_fmap, HR2 by lia. reflexivity. }
  rewrite EM1. cbn [bind].
  edestruct (agrees_setcol M0 size basis_count _
               ((fun r => fexp (of_Z (- r))) <$> R2s)
               (fun i => fexp (of_Z (- (1 + i - (h + 1)) ^ 2))) AM0)
    as (Mc1 & EMc1 & AMc1); [lia | by rewrite length_fmap | |].
  { intros i Hi. rewrite list_lookup_fmap, HR2 by lia. reflexivity. }
  rewrite EMc1. cbn [bind]. cbv zeta.
  destruct (foldM_invariant
              (fun j (st : ndarray F * ndarray F) =>
                 agrees st.1 size basis_count (M_stage h (Z.of_nat j) (-1)) /\
                 agrees st.2 size basis_count (Mc_stage h (Z.of_nat j) (-1)))
              (k_body size (h + 1) (gammaln (lit (1 # 2)))
                 ((fun i => Z.max (i * 32 - MAX_BASIS_SET_OFFSET) MAX_BASIS_SET_OFFSET) <$>
                  arange 0 basis_count))
              (arange 1 basis_count) (M1, Mc1))
    as ([M Mc] & E & AM & AMc).
  - simpl. split.
    + eapply agrees_ext; [exact AM1 |]. intros i c Hi Hc. cbv beta.
      unfold M_stage. cbv zeta. repeat case_decide; try lia; reflexivity.
    + eapply agrees_ext; [exact AMc1 |]. intros i c Hi Hc. cbv beta.
      unfold Mc_stage. cbv zeta. repeat case_decide; try lia; reflexivity.
  - intros j k [M2 Mc2] Hk [AM AMc]. simpl in AM, AMc.
    apply arange_lookup in Hk as [-> Hj].
    destruct (k_body_stage size h basis_count (Z.of_nat j) M2 Mc2)
      as (M3 & Mc3 & E3 & AM3 & AMc3); try assumption; try lia.
    exists (M3, Mc3). split.
    + rewrite <- E3. f_equal. lia.
    + simpl. replace (Z.of_nat (S j)) with (Z.of_nat j + 1) by lia. split; assumption.
  - rewrite E. cbn [bind].
    assert (Hlen : Z.of_nat (length (arange 1 basis_count)) = basis_count - 1)
      by (rewrite arange_length; lia).
    simpl in AM, AMc. rewrite Hlen in AM, AMc.
    exists M, Mc. split; [| split; assumption].
    destruct Hv as [-> | Hv]; [reflexivity |].
    rewrite bool_decide_eq_false_2, andb_false_r; [reflexivity |].
    intros Hnil. rewrite Hnil in Hlen. simpl in Hlen. lia.
Qed.

End SynthesizerLoops.

(** ** What the synthesizer can raise *)

Ltac raise_step H :=
  match type of H with
  | bind ?r _ = Raise _ =>
      let E := fresh "E" in
      destruct r eqn:E; cbn [bind] in H; [| injection H as <-]
  end.

Section SynthesizerErrors.
Context {F : Type} {SF : Scalar F}.

Lemma setitem_raises (a : ndarray F) (i j : Z) (v : F) (e : exn) :
  setitem a i j v = Raise e -> library_error e.
Proof.
  unfold setitem. intros H.
  raise_step H; [| left; eauto using index_raises].
  raise_step H; [discriminate | left; eauto using index_raises].
Qed.

Lemma getitem_raises (a : ndarray F) (i j : Z) (e : exn) :
  getitem a i j = Raise e -> library_error e.
Proof.
  unfold getitem. intros H.
  raise_step H; [| left; eauto using index_raises].
  raise_step H; [| left; eauto using index_raises].
  destruct (entry _ _ _); [discriminate |]. injection H as <-. left. reflexivity.
Qed.

Lemma getitem1_raises (xs : list Z) (i : Z) (e : exn) :
  getitem1 xs i = Raise e -> library_error e.
Proof.
  unfold getitem1. intros H.
  raise_step H; [| left; eauto using index_raises].
  destruct (_ !! _); [discriminate |]. injection H as <-. left. reflexivity.
Qed.

Lemma setcol_raises (a : ndarray F) (j : Z) (v : list F) (e : exn) :
  setcol a j v = Raise e -> library_error e.
Proof.
  unfold setcol. intros H.
  raise_step H; [| left; eauto using index_raises].
  destruct (_ =? _)%nat; [discriminate |]. injection H as <-. right. right. left. reflexivity.
Qed.

Lemma np_zeros_raises (n m : Z) (e : exn) :
  np_zeros (F := F) n m = Raise e -> library_error e.
Proof.
  unfold np_zeros. destruct (_ || _); [| discriminate].
  intros [= <-]. right. left. reflexivity.
Qed.

Lemma l_body_raises (Rm k k2 : Z) (log_k2 angn0 g : F) (delta : list Z)
    (st : ndarray F * ndarray F) (l : Z) (e : exn) :
  l_body Rm k k2 log_k2 angn0 g delta st l = Raise e -> library_error e.
Proof.
  destruct st as [M Mc]. unfold l_body. cbv zeta. intros H.
  raise_step H; [| eauto using setitem_raises].
  raise_step H; [| eauto using setitem_raises].
  raise_step H; [| eauto using getitem_raises].
  raise_step H; [| eauto using getitem1_raises].
  raise_step H; [| eauto using setitem_raises].
  raise_step H; [| eauto using setitem_raises].
  discriminate.
Qed.

Lemma k_body_raises (n Rm : Z) (g : F) (delta : list Z)
    (st : ndarray F * ndarray F) (k : Z) (e : exn) :
  k_body n Rm g delta st k = Raise e -> library_error e.
Proof.
  destruct st as [M Mc]. unfold k_body. cbv zeta. intros H.
  raise_step H; [| eauto using setitem_raises].
  eapply foldM_raises, H. intros b x e'. apply l_body_raises.
Qed.

(** Past its two checks the synthesizer raises nothing but what the
    array operations and the progress output raise. *)
Lemma generate_basis_sets_raises (n : Z) (nbf : nbf_arg) (verbose : bool) (e : exn) :
  n mod 2 <> 0 -> _nbf_default n nbf <= n / 2 ->
  generate_basis_sets n nbf verbose = Raise e -> library_error e.
Proof.
  intros Hodd Hnbf. unfold generate_basis_sets.
  destruct (Z.eqb_spec (n mod 2) 0) as [? | _]; [contradiction |].
  destruct (Z.ltb_spec (n / 2) (_nbf_default n nbf)) as [? | _]; [lia |].
  cbv zeta. intros H.
  raise_step H; [| eauto using np_zeros_raises].
  raise_step H; [| eauto using setcol_raises].
  raise_step H; [| eauto using setcol_raises].
  match type of H with
  | bind ?r _ = _ => destruct r as [[M Mc] | e'] eqn:Eloop; cbn [bind] in H
  end.
  - destruct (_ && _); [| discriminate].
    injection H as <-. right. right. right. reflexivity.
  - injection H as <-. eapply foldM_raises, Eloop. intros b x e0. apply k_body_raises.
Qed.

End SynthesizerErrors.

(** ** Shapes through the products *)

Section TransformFacts.
Context {F : Type} {SF : Scalar F}.

Lemma dot_aligned (a b : ndarray F) :
  shape1 a = shape0 b -> dot a b = Ok (mmul a b).
Proof.
  intros H. unfold dot. rewrite H, Nat.eqb_refl. reflexivity.
Qed.

Lemma dot_not_aligned (a b : ndarray F) :
  shape1 a <> shape0 b -> dot a b = Raise (ValueError shapes_not_aligned).
Proof.
  intros H. unfold dot. destruct (Nat.eqb_spec (shape1 a) (shape0 b)); [contradiction |].
  reflexivity.
Qed.

Lemma inv_shape (a b : ndarray F) :
  inv a = Ok b -> shape0 b = shape0 a /\ shape1 b = shape0 a.
Proof.
  unfold inv. destruct (_ =? _)%nat; [| discriminate].
  destruct (linalg_inv _ _); [| discriminate].
  intros [= <-]. split; reflexivity.
Qed.

Lemma truediv_nonzero (x : F) (dr : Q) :
  ~ (dr == 0)%Q -> truediv x dr = Ok (fdiv x (lit dr)).
Proof.
  intros H. unfold truediv.
  destruct (Qeq_bool dr 0) eqn:E; [| reflexivity].
  apply Qeq_bool_iff in E. contradiction.
Qed.

Lemma truediv_zero (x : F) (dr : Q) :
  (dr == 0)%Q -> truediv x dr = Raise ZeroDivisionError.
Proof.
  intros H. unfold truediv. apply Qeq_bool_iff in H. rewrite H. reflexivity.
Qed.

(** The products of the transform are all aligned for a bundle and an
    image of its size. *)
Lemma transform_products (rawdata M Mc M_left M_right : ndarray F) (size basis_count : nat) :
  bundle_shapes M Mc M_left M_right size basis_count ->
  has_shape rawdata size size ->
  (let* t := dot M_left rawdata in
   let* Ci := dot t M_right in
   let* t := dot Mc Ci in
   dot t (transpose Mc))
  = Ok (mmul (mmul Mc (mmul (mmul M_left rawdata) M_right)) (transpose Mc)).
Proof.
  intros ([HM0 HM1] & [HMc0 HMc1] & [HL0 HL1] & [HR0 HR1]) [HX0 HX1].
  rewrite (dot_aligned M_left rawdata) by congruence. cbn [bind].
  rewrite (dot_aligned (mmul M_left rawdata) M_right) by (simpl; congruence). cbn [bind].
  rewrite (dot_aligned Mc _) by (simpl; congruence). cbn [bind].
  rewrite dot_aligned by (simpl; congruence). reflexivity.
Qed.

(** An image of another shape stops the transform at one of its first
    two products. *)
Lemma transform_products_mismatch (rawdata M Mc M_left M_right : ndarray F)
    (size basis_count : nat) (k : ndarray F -> result (ndarray F)) :
  bundle_shapes M Mc M_left M_right size basis_count ->
  ~ has_shape rawdata size size ->
  (let* t := dot M_left rawdata in
   let* Ci := dot t M_right in
   k Ci)
  = Raise (ValueError shapes_not_aligned).
Proof.
  intros ([HM0 HM1] & [HMc0 HMc1] & [HL0 HL1] & [HR0 HR1]) HX.
  destruct (decide (shape0 rawdata = size)) as [H0 | H0].
  - rewrite (dot_aligned M_left rawdata) by congruence. cbn [bind].
    rewrite dot_not_aligned; [reflexivity |]. simpl. intros H1. apply HX. split; congruence.
  - rewrite dot_not_aligned; [reflexivity |]. congruence.
Qed.

(** The products and inverses of the operator builder are all aligned
    for two basis matrices of one shape. *)
Lemma operators_products (M Mc : ndarray F) (size basis_count : nat) :
  has_shape M size basis_count -> has_shape Mc size basis_count ->
  _get_left_right_matrices M Mc =
    (let* A := inv (mmul (transpose Mc) Mc) in
     let* B := inv (madd (mmul (transpose M) M) (mscale (np_identity basis_count) (of_Z 1))) in
     Ok (mmul A (transpose Mc), mmul M B)).
Proof.
  intros [HM0 HM1] [HMc0 HMc1]. unfold _get_left_right_matrices. cbv zeta.
  rewrite (dot_aligned (transpose Mc) Mc) by (simpl; congruence). cbn [bind].
  destruct (inv (mmul (transpose Mc) Mc)) as [A | e] eqn:EA; cbn [bind]; [| reflexivity].
  apply inv_shape in EA as [HA0 HA1]. simpl in HA0, HA1.
  rewrite (dot_aligned A (transpose Mc)) by (simpl; congruence). cbn [bind].
  rewrite (dot_aligned (transpose M) M) by (simpl; congruence). cbn [bind].
  rewrite HM1. unfold add. simpl. rewrite HM1, Nat.eqb_refl. simpl.
  destruct (inv (madd _ _)) as [B | e] eqn:EB; cbn [bind]; [| reflexivity].
  apply inv_shape in EB as [HB0 HB1]. simpl in HB0, HB1.
  rewrite (dot_aligned M B) by congruence. reflexivity.
Qed.

End TransformFacts.

(** ** The cache lookup, case by case *)

Section CacheFacts.
Context {F : Type} {SF : Scalar F}.
Variable __version__ : string.

Lemma load_bundle_cases (p : string) (w : world F) :
  load_bundle p w =
    match files w !! p with
    | Some (Saved items) =>
        match decode_current items, decode_legacy items with
        | Some b, _ => (logged w [EvLoad p], Ok b)
        | None, Some b => (logged w [EvLoad p; EvLoad p], Ok b)
        | None, None => (logged w [EvLoad p; EvLoad p], Raise (ValueError unpack_mismatch))
        end
    | Some (Unreadable fails_with_ValueError) =>
        (logged w [EvLoad p; EvLoad p], Raise (ValueError unreadable_file))
    | Some (Unreadable fails_with_other) | None => (logged w [EvLoad p], Raise IOError)
    end.
Proof.
  unfold load_bundle, except_ValueError, io_bind, np_load, io_lift, io_ret, logged. simpl.
  destruct (files w !! p) as [[[] | items] |] eqn:Hf; simpl; rewrite ?Hf; simpl;
    rewrite <- ?app_assoc; try reflexivity.
  destruct items as [|a [|b [|c [|d [|e [|f items]]]]]]; simpl; rewrite ?Hf; simpl;
    rewrite <- ?app_assoc; reflexivity.
Qed.

Lemma synthesize_and_save_cases (n nbf : Z) (basis_dir : option string) (verbose : bool)
    (w : world F) :
  synthesize_and_save __version__ n nbf basis_dir verbose w =
    match generate_basis_sets n (given nbf) verbose with
    | Raise e => (logged w [EvGenerate n nbf], Raise e)
    | Ok (M, Mc) =>
        match _get_left_right_matrices M Mc with
        | Raise e => (logged w [EvGenerate n nbf], Raise e)
        | Ok (M_left, M_right) =>
            (match basis_dir with
             | Some d =>
                 mk_world
                   (<[path_to_basis_file d n nbf :=
                        Saved [PyArray M; PyArray Mc; PyArray M_left; PyArray M_right;
                               PyStr __version__]]> (files w))
                   (log w ++ [EvGenerate n nbf; EvSave (path_to_basis_file d n nbf)])
             | None => logged w [EvGenerate n nbf]
             end,
             Ok (PyArray M, PyArray Mc, PyArray M_left, PyArray M_right))
        end
    end.
Proof.
  unfold synthesize_and_save, io_bind, emit, io_lift, io_ret, np_save, logged,
    path_to_basis_file. simpl.
  destruct (generate_basis_sets n (given nbf) verbose) as [[M Mc] | e]; [| reflexivity].
  destruct (_get_left_right_matrices M Mc) as [[M_left M_right] | e]; [| reflexivity].
  destruct basis_dir as [d |]; simpl; rewrite <- ?app_assoc; reflexivity.
Qed.

Lemma get_basis_sets_cached_cases (n : Z) (nbf : nbf_arg) (d : string) (verbose : bool)
    (w : world F) :
  get_basis_sets_cached __version__ n nbf (Some d) verbose w =
    let p := path_to_basis_file d n (_nbf_default n nbf) in
    match files w !! p with
    | None =>
        synthesize_and_save __version__ n (_nbf_default n nbf) (Some d) verbose
          (logged w [EvExists p])
    | Some _ =>
        match load_bundle p (logged w [EvExists p]) with
        | (w', Ok (PyNone, _, _, _)) =>
            synthesize_and_save __version__ n (_nbf_default n nbf) (Some d) verbose w'
        | (w', Ok b) => (w', Ok b)
        | (w', Raise e) => (w', Raise e)
        end
    end.
Proof.
  unfold get_basis_sets_cached, path_to_basis_file. cbv zeta.
  unfold io_bind at 1. unfold io_bind at 1. unfold os_path_exists at 1.
  fold (logged w [EvExists (os_path_join d (basis_name n (_nbf_default n nbf)))]).
  destruct (files w !! _) as [s |]; [| reflexivity].
  unfold io_bind at 1.
  destruct (load_bundle _ _) as [w' [[[[M Mc] M_left] M_right] | e]]; [| reflexivity].
  unfold io_ret. destruct M; reflexivity.
Qed.

Lemma get_basis_sets_cached_no_dir (n : Z) (nbf : nbf_arg) (verbose : bool) (w : world F) :
  get_basis_sets_cached __version__ n nbf None verbose w =
    synthesize_and_save __version__ n (_nbf_default n nbf) None verbose w.
Proof. reflexivity. Qed.

Lemma logged_logged (w : world F) (evs evs' : list event) :
  logged (logged w evs) evs' = logged w (evs ++ evs').
Proof. unfold logged. simpl. rewrite <- app_assoc. reflexivity. Qed.

Lemma synthesized_app (evs evs' : list event) :
  synthesized (evs ++ evs') = (synthesized evs + synthesized evs')%nat.
Proof. induction evs as [|e evs IH]; simpl; [reflexivity | rewrite IH; lia]. Qed.

(** A loadable bundle is returned as it is stored, after one or two
    loads and no synthesis. *)
Lemma lookup_hit (n : Z) (nbf : nbf_arg) (d : string) (verbose : bool) (w : world F)
    (b : @bundle F) :
  loadable (files w !! path_to_basis_file d n (_nbf_default n nbf)) b ->
  exists evs,
    get_basis_sets_cached __version__ n nbf (Some d) verbose w = (logged w evs, Ok b) /\
    synthesized evs = 0%nat.
Proof.
  intros [HM (items & Hf & Hdec)].
  rewrite get_basis_sets_cached_cases. cbv zeta. rewrite Hf, load_bundle_cases.
  simpl files. rewrite Hf.
  destruct b as [[[M Mc] M_left] M_right]. simpl in HM.
  destruct Hdec as [Hc | [Hc Hl]]; rewrite Hc, ?Hl; rewrite logged_logged;
    destruct M; try contradiction; eexists; (split; [reflexivity | reflexivity]).
Qed.

(** A lookup that returns leaves a loadable file that holds what it
    returned, and has synthesized at most once. *)
Lemma lookup_leaves_loadable (n : Z) (nbf : nbf_arg) (d : string) (verbose : bool)
    (w w1 : world F) (b : @bundle F) :
  get_basis_sets_cached __version__ n nbf (Some d) verbose w = (w1, Ok b) ->
  loadable (files w1 !! path_to_basis_file d n (_nbf_default n nbf)) b /\
  exists evs, log w1 = log w ++ evs /\ (synthesized evs <= 1)%nat.
Proof.
  rewrite get_basis_sets_cached_cases. cbv zeta.
  set (p := path_to_basis_file d n (_nbf_default n nbf)).
  assert (Hsynth : forall w0 evs0, files w0 = files w -> log w0 = log w ++ evs0 ->
            synthesized evs0 = 0%nat ->
            synthesize_and_save __version__ n (_nbf_default n nbf) (Some d) verbose w0
              = (w1, Ok b) ->
            loadable (files w1 !! p) b /\
            exists evs, log w1 = log w ++ evs /\ (synthesized evs <= 1)%nat).
  { intros w0 evs0 Hfiles Hlog Hev. rewrite synthesize_and_save_cases.
    destruct (generate_basis_sets _ _ _) as [[M Mc] | e]; [| discriminate].
    destruct (_get_left_right_matrices M Mc) as [[M_left M_right] | e]; [| discriminate].
    intros [= <- <-]. simpl. fold p. split.
    - split; [discriminate |]. eexists. split; [apply lookup_insert_eq |].
      left. reflexivity.
    - eexists. split; [rewrite Hlog, <- app_assoc; reflexivity |].
      rewrite synthesized_app, Hev. simpl. lia. }
  assert (Hret : forall evs0 b0, synthesized evs0 = 0%nat ->
            (exists items, files w !! p = Some (Saved items) /\
               (decode_current items = Some b0 \/
                (decode_current items = None /\ decode_legacy items = Some b0))) ->
            match b0 with
            | (PyNone, _, _, _) =>
                synthesize_and_save __version__ n (_nbf_default n nbf) (Some d) verbose
                  (logged w evs0)
            | _ => (logged w evs0, Ok b0)
            end = (w1, Ok b) ->
            loadable (files w1 !! p) b /\
            exists evs, log w1 = log w ++ evs /\ (synthesized evs <= 1)%nat).
  { intros evs0 [[[M Mc] M_left] M_right] Hev Hitems.
    destruct M as [| a | s].
    - apply (Hsynth (logged w evs0) evs0); [reflexivity | reflexivity | exact Hev].
    - intros [= <- <-]. split; [split; [discriminate | exact Hitems] |].
      exists evs0. split; [reflexivity | lia].
    - intros [= <- <-]. split; [split; [discriminate | exact Hitems] |].
      exists evs0. split; [reflexivity | lia]. }
  destruct (files w !! p) as [s |] eqn:Hf.
  - rewrite load_bundle_cases. simpl files. rewrite Hf.
    destruct s as [[] | items]; try discriminate.
    destruct (decode_current items) as [b0 |] eqn:Hc.
    + rewrite logged_logged. apply Hret; [reflexivity | eauto].
    + destruct (decode_legacy items) as [b0 |] eqn:Hl; [| discriminate].
      rewrite logged_logged. apply Hret; [reflexivity | eauto].
  - apply (Hsynth (logged w [EvExists p]) [EvExists p]); reflexivity.
Qed.

Lemma generate_odd_error (n : Z) (nbf : nbf_arg) (verbose : bool) :
  generate_basis_sets n nbf verbose = Raise (ValueError n_must_be_odd) -> n mod 2 = 0.
Proof.
  intros H. destruct (decide (n mod 2 = 0)) as [| Hodd]; [assumption | exfalso].
  destruct (Z.lt_ge_cases (n / 2) (_nbf_default n nbf)) as [Hlt | Hge].
  - unfold generate_basis_sets in H.
    destruct (Z.eqb_spec (n mod 2) 0); [contradiction |].
    destruct (Z.ltb_spec (n / 2) (_nbf_default n nbf)); [discriminate | lia].
  - apply generate_basis_sets_raises in H; [| assumption | assumption].
    destruct H as [H | [H | [H | H]]]; discriminate.
Qed.

Lemma inv_raises (a : ndarray F) (e : exn) : inv a = Raise e -> e = LinAlgError.
Proof.
  unfold inv. destruct (_ =? _)%nat; [| congruence].
  destruct (linalg_inv _ _); congruence.
Qed.

Lemma dot_raises (a b : ndarray F) (e : exn) :
  dot a b = Raise e -> e = ValueError shapes_not_aligned.
Proof. unfold dot. destruct (_ =? _)%nat; congruence. Qed.

Lemma add_raises (a b : ndarray F) (e : exn) :
  add a b = Raise e -> e = ValueError shapes_not_aligned.
Proof. unfold add. destruct (_ && _); congruence. Qed.

Lemma operators_raises (M Mc : ndarray F) (e : exn) :
  _get_left_right_matrices M Mc = Raise e ->
  e = ValueError shapes_not_aligned \/ e = LinAlgError.
Proof.
  unfold _get_left_right_matrices. cbv zeta. intros H.
  raise_step H; [| eauto using dot_raises].
  raise_step H; [| eauto using inv_raises].
  raise_step H; [| eauto using dot_raises].
  raise_step H; [| eauto using dot_raises].
  raise_step H; [| eauto using add_raises].
  raise_step H; [| eauto using inv_raises].
  raise_step H; [| eauto using dot_raises].
  discriminate.
Qed.

(** Every call of a synthesis is about its configuration, and it raises
    the odd-size error only for an even size. *)
Lemma synthesize_and_save_trace (n nbf : Z) (basis_dir : option string) (verbose : bool)
    (w w1 : world F) (r : result (@bundle F)) :
  synthesize_and_save __version__ n nbf basis_dir verbose w = (w1, r) ->
  (exists evs, log w1 = log w ++ evs /\ Forall (event_for basis_dir n nbf) evs) /\
  (r = Raise (ValueError n_must_be_odd) -> n mod 2 = 0).
Proof.
  rewrite synthesize_and_save_cases.
  destruct (generate_basis_sets n (given nbf) verbose) as [[M Mc] | e] eqn:Eg.
  - destruct (_get_left_right_matrices M Mc) as [[M_left M_right] | e] eqn:Eo.
    + intros [= <- <-]. split; [| discriminate].
      destruct basis_dir as [d |]; simpl; eexists; (split; [reflexivity |]);
        repeat constructor; simpl; eauto.
    + intros [= <- <-]. split.
      * eexists. split; [reflexivity |]. repeat constructor.
      * intros [= ->]. apply operators_raises in Eo as [? | ?]; discriminate.
  - intros [= <- <-]. split.
    + eexists. split; [reflexivity |]. repeat constructor.
    + intros [= ->]. eapply generate_odd_error, Eg.
Qed.

Lemma get_basis_sets_cached_trace (n : Z) (nbf : nbf_arg) (basis_dir : option string)
    (verbose : bool) (w w1 : world F) (r : result (@bundle F)) :
  get_basis_sets_cached __version__ n nbf basis_dir verbose w = (w1, r) ->
  (exists evs, log w1 = log w ++ evs /\
     Forall (event_for basis_dir n (_nbf_default n nbf)) evs) /\
  (r = Raise (ValueError n_must_be_odd) -> n mod 2 = 0).
Proof.
  destruct basis_dir as [d |].
  - rewrite get_basis_sets_cached_cases. cbv zeta.
    set (p := path_to_basis_file d n (_nbf_default n nbf)).
    assert (Hp : forall q, q = EvExists p \/ q = EvLoad p ->
              event_for (Some d) n (_nbf_default n nbf) q).
    { intros q [-> | ->]; simpl; eauto. }
    assert (Hsynth : forall evs0, Forall (event_for (Some d) n (_nbf_default n nbf)) evs0 ->
              synthesize_and_save __version__ n (_nbf_default n nbf) (Some d) verbose
                (logged w evs0) = (w1, r) ->
              (exists evs, log w1 = log w ++ evs /\
                 Forall (event_for (Some d) n (_nbf_default n nbf)) evs) /\
              (r = Raise (ValueError n_must_be_odd) -> n mod 2 = 0)).
    { intros evs0 Hevs0 H. apply synthesize_and_save_trace in H as [(evs & Hlog & Hevs) Hodd].
      split; [| exact Hodd]. exists (evs0 ++ evs). simpl in Hlog.
      rewrite Hlog, <- app_assoc. split; [reflexivity |]. apply Forall_app. auto. }
    destruct (files w !! p) as [s |] eqn:Hf.
    + rewrite load_bundle_cases. simpl files. rewrite Hf.
      assert (Hret : forall evs0 b0, Forall (event_for (Some d) n (_nbf_default n nbf)) evs0 ->
                match b0 with
                | (PyNone, _, _, _) =>
                    synthesize_and_save __version__ n (_nbf_default n nbf) (Some d) verbose
                      (logged w evs0)
                | _ => (logged w evs0, Ok b0)
                end = (w1, r) ->
                (exists evs, log w1 = log w ++ evs /\
                   Forall (event_for (Some d) n (_nbf_default n nbf)) evs) /\
                (r = Raise (ValueError n_must_be_odd) -> n mod 2 = 0)).
      { intros evs0 [[[M Mc] M_left] M_right] Hevs0.
        destruct M; [apply Hsynth; assumption | |];
          (intros [= <- <-]; split; [eauto | discriminate]). }
      destruct s as [[] | items].
      * rewrite logged_logged. intros [= <- <-]. split; [| discriminate].
        eexists. split; [reflexivity |]. repeat constructor; auto.
      * rewrite logged_logged. intros [= <- <-]. split; [| discriminate].
        eexists. split; [reflexivity |]. repeat constructor; auto.
      * destruct (decode_current items) as [b0 |].
        { rewrite logged_logged. apply Hret. repeat constructor; auto. }
        destruct (decode_legacy items) as [b0 |].
        { rewrite logged_logged. apply Hret. repeat constructor; auto. }
        rewrite logged_logged. intros [= <- <-]. split; [| discriminate].
        eexists. split; [reflexivity |]. repeat constructor; auto.
    + apply Hsynth. repeat constructor; auto.
  - rewrite get_basis_sets_cached_no_dir. apply synthesize_and_save_trace.
Qed.

End CacheFacts.

(** ** The constructors *)

Section ConstructorFacts.
Context {F : Type} {SF : Scalar F}.

Lemma coerced_size (n : Z) :
  (2 * (n / 2) + 1) mod 2 = 1 /\
  (n mod 2 = 0 -> 2 * (n / 2) + 1 = n + 1) /\
  (n mod 2 = 1 -> 2 * (n / 2) + 1 = n).
Proof.
  pose proof (Z.div_mod n 2 ltac:(lia)) as Hn. repeat split; try lia.
  rewrite Z.add_comm, Z.mul_comm, Z.mod_add by lia. reflexivity.
Qed.

Lemma BASEX_init_cases (__version__ : string) (n : Z) (nbf : nbf_arg)
    (basis_dir : option string) (calc_speeds : bool) (dr : Q) (verbose : bool)
    (w : world F) :
  BASEX_init __version__ n nbf basis_dir calc_speeds dr verbose w =
    match get_basis_sets_cached __version__ (2 * (n / 2) + 1) nbf basis_dir verbose w with
    | (w', Ok (M, Mc, M_left, M_right)) =>
        (w', Ok (mk_BASEX verbose calc_speeds dr (2 * (n / 2) + 1) M Mc M_left M_right))
    | (w', Raise e) => (w', Raise e)
    end.
Proof.
  unfold BASEX_init, io_bind, io_ret. cbv zeta.
  destruct (get_basis_sets_cached _ _ _ _ _ _) as [w' [[[[M Mc] M_left] M_right] | e]];
    reflexivity.
Qed.

Lemma legacy_operators (M Mc : ndarray F) :
  get_left_right_matrices M Mc = _get_left_right_matrices M Mc.
Proof. reflexivity. Qed.

(** The legacy constructor: its calls are about the coerced size, and it
    raises the odd-size error only if its synthesizer does so for an odd
    size. *)
Lemma core_BASEX_init_trace
    (synth : Z -> Z -> bool -> result (ndarray F * ndarray F))
    (n nbf : Z) (d : string) (verbose calc_speeds : bool) (w w1 : world F)
    (r : result (@core_BASEX F)) :
  core_BASEX_init synth n nbf d verbose calc_speeds w = (w1, r) ->
  (exists evs, log w1 = log w ++ evs /\
     Forall (event_for (Some d) (2 * (n / 2) + 1) nbf) evs) /\
  (forall self, r = Ok self -> core_n self = 2 * (n / 2) + 1) /\
  ((forall m k v, synth m k v = Raise (ValueError n_must_be_odd) -> m mod 2 = 0) ->
   r <> Raise (ValueError n_must_be_odd)).
Proof.
  pose proof (coerced_size n) as (Hodd & _ & _).
  unfold core_BASEX_init, io_bind, os_path_exists, np_load, emit, io_lift, io_ret, np_save.
  cbv zeta. simpl.
  set (p := os_path_join d (basis_name (2 * (n / 2) + 1) nbf)).
  assert (Hp : forall q, q = EvExists p \/ q = EvLoad p \/ q = EvSave p ->
            event_for (Some d) (2 * (n / 2) + 1) nbf q).
  { intros q [-> | [-> | ->]]; simpl; eauto. }
  destruct (files w !! p) as [s |] eqn:Hf; simpl; rewrite ?Hf.
  - destruct s as [[] | items]; simpl.
    + intros [= <- <-]. split; [| split; [discriminate | discriminate]].
      eexists. split; [simpl; rewrite <- app_assoc; reflexivity |]. repeat constructor; auto.
    + intros [= <- <-]. split; [| split; [discriminate | discriminate]].
      eexists. split; [simpl; rewrite <- app_assoc; reflexivity |]. repeat constructor; auto.
    + destruct items as [|a [|b [|c [|e [|f items]]]]]; simpl;
        intros [= <- <-];
        (split; [eexists; split; [simpl; rewrite <- app_assoc; reflexivity |];
                 repeat constructor; auto |]);
        (split; [| discriminate]); intros self; try discriminate.
      intros [= <-]. reflexivity.
  - destruct (synth _ _ _) as [[M Mc] | e] eqn:Es; simpl.
    + rewrite legacy_operators.
      destruct (_get_left_right_matrices M Mc) as [[left_ right_] | e] eqn:Eo; simpl.
      * intros [= <- <-]. split; [| split].
        -- eexists. split; [simpl; rewrite <- !app_assoc; reflexivity |].
           repeat constructor; simpl; eauto.
        -- intros self [= <-]. reflexivity.
        -- discriminate.
      * intros [= <- <-]. split; [| split; [discriminate |]].
        -- eexists. split; [simpl; rewrite <- !app_assoc; reflexivity |].
           repeat constructor; simpl; eauto.
        -- intros _ [= ->]. apply operators_raises in Eo as [? | ?]; discriminate.
    + intros [= <- <-]. split; [| split; [discriminate |]].
      * eexists. split; [simpl; rewrite <- !app_assoc; reflexivity |].
        repeat constructor; simpl; eauto.
      * intros Hs [= ->]. apply Hs in Es. lia.
Qed.

End ConstructorFacts.

(** ** The quiet and the verbose run, and the transform on aligned inputs *)

Section QuietRunAndTransform.
Context {F : Type} {SF : Scalar F}.

(** The progress output changes no array: what a verbose run returns,
    the quiet run returns too. *)
Lemma generate_basis_sets_quiet (n : Z) (nbf : nbf_arg) (verbose : bool)
    (r : ndarray F * ndarray F) :
  generate_basis_sets n nbf verbose = Ok r -> generate_basis_sets n nbf false = Ok r.
Proof.
  unfold generate_basis_sets.
  destruct (n mod 2 =? 0); [discriminate |].
  destruct (n / 2 <? _nbf_default n nbf); [discriminate |]. cbv zeta.
  destruct (np_zeros n (_nbf_default n nbf)) as [M0 |]; [| discriminate]. cbn [bind].
  destruct (setcol M0 0 _) as [M1 |]; [| discriminate]. cbn [bind].
  destruct (setcol M0 0 _) as [Mc1 |]; [| discriminate]. cbn [bind].
  destruct (foldM _ _ _) as [[M Mc] |]; [| discriminate]. cbn [bind].
  destruct (verbose && _); [discriminate |]. intros [= <-]. reflexivity.
Qed.

(** With [verbose] set the run differs from the quiet one in its last
    progress line only. *)
Lemma generate_basis_sets_loud (n : Z) (nbf : nbf_arg) (r : ndarray F * ndarray F) :
  generate_basis_sets n nbf false = Ok r ->
  generate_basis_sets n nbf true =
    if bool_decide (arange 1 (_nbf_default n nbf) = []) then Raise UnboundLocalError
    else Ok r.
Proof.
  unfold generate_basis_sets.
  destruct (n mod 2 =? 0); [discriminate |].
  destruct (n / 2 <? _nbf_default n nbf); [discriminate |]. cbv zeta.
  destruct (np_zeros n (_nbf_default n nbf)) as [M0 |]; [| discriminate]. cbn [bind].
  destruct (setcol M0 0 _) as [M1 |]; [| discriminate]. cbn [bind].
  destruct (setcol M0 0 _) as [Mc1 |]; [| discriminate]. cbn [bind].
  destruct (foldM _ _ _) as [[M Mc] |]; [| discriminate]. cbn [bind].
  simpl. intros [= <-]. reflexivity.
Qed.

Lemma basex_transform_aligned (X M Mc OpLeft OpRight : ndarray F) (dr : Q)
    (size basis_count : nat) :
  bundle_shapes M Mc OpLeft OpRight size basis_count ->
  has_shape X size size ->
  basex_transform X M Mc OpLeft OpRight dr =
    (let* s := truediv MAGIC_NUMBER dr in
     Ok (mscale (mmul (mmul Mc (mmul (mmul OpLeft X) OpRight)) (transpose Mc)) s)).
Proof.
  intros Hb HX. unfold basex_transform.
  pose proof (transform_products X M Mc OpLeft OpRight size basis_count Hb HX) as Hp.
  destruct (dot OpLeft X) as [t |]; [| discriminate]. cbn [bind] in *.
  destruct (dot t OpRight) as [Ci |]; [| discriminate]. cbn [bind] in *.
  destruct (dot Mc Ci) as [t' |]; [| discriminate]. cbn [bind] in *.
  rewrite Hp. reflexivity.
Qed.

Lemma core_basex_transform_unscaled (X Mc left_ right_ : ndarray F) (size basis_count : nat) :
  has_shape Mc size basis_count -> has_shape left_ basis_count size ->
  has_shape right_ size basis_count -> has_shape X size size ->
  core_basex_transform left_ right_ Mc X
    = Ok (mmul (mmul Mc (mmul (mmul left_ X) right_)) (transpose Mc)).
Proof.
  intros HMc Hl Hr HX. unfold core_basex_transform.
  apply (transform_products X Mc Mc left_ right_ size basis_count); [| exact HX].
  repeat split; first [apply HMc | apply Hl | apply Hr].
Qed.
End QuietRunAndTransform.

(** ** Slices *)

Section SliceFacts.
Context {F : Type} {SF : Scalar F}.

Lemma adjust_in (len : nat) (i : Z) :
  0 <= i <= Z.of_nat len -> adjust len i = Z.to_nat i.
Proof. intros H. unfold adjust. destruct (Z.ltb_spec i 0); lia. Qed.

Lemma slice_in (len : nat) (start stop : Z) :
  0 <= start <= stop -> stop <= Z.of_nat len ->
  slice len start stop = (Z.to_nat start, Z.to_nat (stop - start)).
Proof.
  intros H1 H2. unfold slice. rewrite !adjust_in by lia. f_equal. lia.
Qed.

Lemma setslice_shape (a d a' : ndarray F) (r0 r1 c0 c1 : Z) :
  setslice a r0 r1 c0 c1 d = Ok a' -> shape0 a' = shape0 a /\ shape1 a' = shape1 a.
Proof.
  unfold setslice. destruct (slice _ r0 r1), (slice _ c0 c1).
  destruct (_ && _); [| discriminate]. intros [= <-]. split; reflexivity.
Qed.

Lemma agrees_setslice (a d : ndarray F) (n m : Z) (f g : Z -> Z -> F) (r0 c0 : Z) :
  agrees a n m f ->
  agrees d (Z.of_nat (shape0 d)) (Z.of_nat (shape1 d)) g ->
  0 <= r0 -> r0 + Z.of_nat (shape0 d) <= n ->
  0 <= c0 -> c0 + Z.of_nat (shape1 d) <= m ->
  exists a',
    setslice a r0 (r0 + Z.of_nat (shape0 d)) c0 (c0 + Z.of_nat (shape1 d)) d = Ok a' /\
    agrees a' n m
      (fun i j =>
         if decide (r0 <= i < r0 + Z.of_nat (shape0 d) /\
                    c0 <= j < c0 + Z.of_nat (shape1 d))
         then g (i - r0) (j - c0) else f i j).
Proof.
  intros (H0 & H1 & He) (_ & _ & Hd) Hr0 Hr1 Hc0 Hc1. unfold setslice.
  rewrite !slice_in by lia.
  replace (Z.to_nat (r0 + Z.of_nat (shape0 d) - r0)) with (shape0 d) by lia.
  replace (Z.to_nat (c0 + Z.of_nat (shape1 d) - c0)) with (shape1 d) by lia.
  unfold broadcastable. rewrite !Nat.eqb_refl. simpl.
  eexists. split; [reflexivity |]. unfold agrees. simpl.
  repeat split; try assumption.
  intros i j Hi Hj. specialize (He i j Hi Hj). unfold entry in *. simpl.
  rewrite list_lookup_imap.
  destruct (rows a !! i) as [row |]; simpl in *; [| discriminate].
  rewrite list_lookup_imap, He. simpl. f_equal.
  case_decide as Hin.
  - destruct Hin as [Hi' Hj'].
    destruct (Nat.leb_spec (Z.to_nat r0) i); [| lia].
    destruct (Nat.ltb_spec i (Z.to_nat r0 + shape0 d)); [| lia].
    destruct (Nat.leb_spec (Z.to_nat c0) j); [| lia].
    destruct (Nat.ltb_spec j (Z.to_nat c0 + shape1 d)); [| lia]. simpl.
    assert (Hrow : (if (shape0 d =? 1)%nat then 0 else i - Z.to_nat r0)%nat
                   = (i - Z.to_nat r0)%nat)
      by (destruct (Nat.eqb_spec (shape0 d) 1); lia).
    assert (Hcol : (if (shape1 d =? 1)%nat then 0 else j - Z.to_nat c0)%nat
                   = (j - Z.to_nat c0)%nat)
      by (destruct (Nat.eqb_spec (shape1 d) 1); lia).
    rewrite Hrow, Hcol.
    specialize (Hd (i - Z.to_nat r0)%nat (j - Z.to_nat c0)%nat ltac:(lia) ltac:(lia)).
    unfold entry in Hd. rewrite Hd. simpl. f_equal; lia.
  - destruct (Nat.leb_spec (Z.to_nat r0) i); simpl; [| reflexivity].
    destruct (Nat.ltb_spec i (Z.to_nat r0 + shape0 d)); simpl; [| reflexivity].
    destruct (Nat.leb_spec (Z.to_nat c0) j); simpl; [| reflexivity].
    destruct (Nat.ltb_spec j (Z.to_nat c0 + shape1 d)); simpl; [lia | reflexivity].
Qed.

Lemma agrees_getslice (a : ndarray F) (n m : Z) (f : Z -> Z -> F) (r0 r1 c0 c1 : Z) :
  agrees a n m f ->
  0 <= r0 <= r1 -> r1 <= n -> 0 <= c0 <= c1 -> c1 <= m ->
  agrees (getslice a r0 r1 c0 c1) (r1 - r0) (c1 - c0) (fun i j => f (i + r0) (j + c0)).
Proof.
  intros (H0 & H1 & He) Hr Hr1 Hc Hc1. unfold getslice.
  rewrite !slice_in by lia. unfold agrees, entry. simpl.
  repeat split; try lia.
  intros i j Hi Hj. rewrite list_lookup_fmap, lookup_take_lt, lookup_drop by lia.
  specialize (He (Z.to_nat r0 + i)%nat (Z.to_nat c0 + j)%nat ltac:(lia) ltac:(lia)).
  unfold entry in He.
  destruct (rows a !! (Z.to_nat r0 + i)%nat) as [row |]; simpl in *; [| discriminate].
  rewrite lookup_take_lt, lookup_drop by lia. rewrite He. f_equal. f_equal; lia.
Qed.

Lemma getslice_shape (a : ndarray F) (r0 r1 c0 c1 : Z) :
  0 <= r0 <= r1 -> r1 <= Z.of_nat (shape0 a) ->
  0 <= c0 <= c1 -> c1 <= Z.of_nat (shape1 a) ->
  shape0 (getslice a r0 r1 c0 c1) = Z.to_nat (r1 - r0) /\
  shape1 (getslice a r0 r1 c0 c1) = Z.to_nat (c1 - c0).
Proof.
  intros. unfold getslice. rewrite !slice_in by lia. split; reflexivity.
Qed.

End SliceFacts.

(** ** Centering an image *)

Section CenterImageFacts.
Context {F : Type} {SF : Scalar F}.

Lemma well_formed_agrees (a : ndarray F) :
  well_formed a ->
  agrees a (Z.of_nat (shape0 a)) (Z.of_nat (shape1 a))
    (fun i j => default (lit 0%Q) (entry a (Z.to_nat i) (Z.to_nat j))).
Proof.
  intros Hwf. repeat split.
  intros i j Hi Hj. rewrite !Nat2Z.id.
  destruct (Hwf i j ltac:(lia) ltac:(lia)) as [x ->]. reflexivity.
Qed.

Lemma trunc_inject_Z (z : Z) : trunc (inject_Z z) = z.
Proof. unfold trunc, inject_Z. simpl. apply Z.quot_1_r. Qed.

Lemma np_zeros_square (n : Z) :
  0 <= n ->
  exists im : ndarray F, np_zeros (2 * n) (2 * n) = Ok im /\
    agrees im (2 * n) (2 * n) (fun _ _ => lit 0%Q).
Proof. intros Hn. apply agrees_zeros; lia. Qed.

(** Whatever [center_image] returns is [n x n]. *)
Lemma center_image_shape (data out : ndarray F) (center : Q * Q) (n : Z) :
  center_image data center n = Ok out ->
  0 <= n /\ has_shape out (Z.to_nat n) (Z.to_nat n).
Proof.
  unfold center_image. cbv zeta. intros H.
  destruct (np_zeros (2 * n) (2 * n)) as [im |] eqn:Ez; [| discriminate]. cbn [bind] in H.
  assert (Hn : 0 <= n /\ shape0 im = Z.to_nat (2 * n) /\ shape1 im = Z.to_nat (2 * n)).
  { unfold np_zeros in Ez. destruct (Z.ltb_spec (2 * n) 0); simpl in Ez; [discriminate |].
    injection Ez as <-. simpl. lia. }
  destruct Hn as (Hn & Hs0 & Hs1).
  destruct (setslice im _ _ _ _ data) as [im' |] eqn:Es; [| discriminate]. cbn [bind] in H.
  apply setslice_shape in Es as [Hs0' Hs1']. injection H as <-.
  split; [exact Hn |].
  assert (Hh : 0 <= n / 2 <= n).
  { split; [apply Z.div_pos; lia | apply Z.div_le_upper_bound; lia]. }
  unfold has_shape.
  destruct (getslice_shape im' (n / 2) (n + n / 2) (n / 2) (n + n / 2)) as [-> ->];
    try lia.
  all: try (split; f_equal; lia).
Qed.


End CenterImageFacts.

(** ** Every outcome of the synthesizer *)

Section SynthesizerOutcomes.
Context {F : Type} {SF : Scalar F}.

Lemma generate_basis_sets_negative (n : Z) (nbf : nbf_arg) (verbose : bool) :
  n mod 2 <> 0 -> _nbf_default n nbf <= n / 2 -> _nbf_default n nbf < 0 ->
  generate_basis_sets n nbf verbose = Raise (ValueError negative_dimensions).
Proof.
  intros Hodd Hle Hneg. unfold generate_basis_sets.
  destruct (Z.eqb_spec (n mod 2) 0); [contradiction |].
  destruct (Z.ltb_spec (n / 2) (_nbf_default n nbf)); [lia |]. cbv zeta.
  unfold np_zeros at 1.
  destruct (Z.ltb_spec (_nbf_default n nbf) 0); [| lia].
  rewrite orb_true_r. reflexivity.
Qed.

Lemma generate_basis_sets_no_basis (n : Z) (nbf : nbf_arg) (verbose : bool) :
  n mod 2 <> 0 -> 0 <= n / 2 -> _nbf_default n nbf = 0 ->
  generate_basis_sets n nbf verbose = Raise IndexError.
Proof.
  intros Hodd Hn Hk. unfold generate_basis_sets. rewrite Hk.
  destruct (Z.eqb_spec (n mod 2) 0); [contradiction |].
  destruct (Z.ltb_spec (n / 2) 0); [lia |]. cbv zeta.
  assert (0 <= n) by (pose proof (Z.div_mod n 2 ltac:(lia)); pose proof (Z.mod_pos_bound n 2); lia).
  unfold np_zeros.
  destruct (Z.ltb_spec n 0); [lia |]. simpl. reflexivity.
Qed.

Lemma generate_basis_sets_outcome (n : Z) (nbf : nbf_arg) (verbose : bool) :
  match synthesis_outcome n (_nbf_default n nbf) verbose with
  | Some e => generate_basis_sets n nbf verbose = Raise e
  | None =>
      valid_config n (_nbf_default n nbf) /\
      exists M Mc,
        generate_basis_sets n nbf verbose = Ok (M, Mc) /\
        agrees M n (_nbf_default n nbf)
          (M_stage (n / 2) (_nbf_default n nbf - 1) (-1)) /\
        agrees Mc n (_nbf_default n nbf)
          (Mc_stage (n / 2) (_nbf_default n nbf - 1) (-1))
  end.
Proof.
  unfold synthesis_outcome. set (k := _nbf_default n nbf).
  pose proof (Z.mod_pos_bound n 2 ltac:(lia)) as Hmod.
  destruct (Z.eqb_spec (n mod 2) 0) as [He | Ho].
  { unfold generate_basis_sets. rewrite He. reflexivity. }
  destruct (Z.ltb_spec (n / 2) k) as [Hlt | Hle].
  { unfold generate_basis_sets. destruct (Z.eqb_spec (n mod 2) 0); [contradiction |].
    fold k. destruct (Z.ltb_spec (n / 2) k); [reflexivity | lia]. }
  destruct (Z.ltb_spec k 0) as [Hneg | Hpos].
  { apply generate_basis_sets_negative; assumption. }
  destruct (Z.eqb_spec k 0) as [H0 | H0].
  { apply generate_basis_sets_no_basis; [assumption | lia | assumption]. }
  assert (Hvalid : valid_config n k) by (split; lia).
  destruct (Z.eqb_spec k 1) as [H1 | H1].
  - destruct verbose; simpl.
    + destruct (generate_basis_sets_final n 1 nbf false) as (M & Mc & E & _);
        [rewrite <- H1; exact Hvalid | exact H1 | left; reflexivity |].
      rewrite (generate_basis_sets_loud n nbf (M, Mc) E). fold k. rewrite H1. reflexivity.
    + split; [exact Hvalid |].
      apply (generate_basis_sets_final n k nbf false Hvalid eq_refl). left. reflexivity.
  - rewrite andb_false_r. split; [exact Hvalid |].
    apply (generate_basis_sets_final n k nbf verbose Hvalid eq_refl). right. lia.
Qed.

Lemma generate_basis_sets_returned (n : Z) (nbf : nbf_arg) (verbose : bool)
    (M Mc : ndarray F) :
  generate_basis_sets n nbf verbose = Ok (M, Mc) ->
  valid_config n (_nbf_default n nbf) /\
  agrees M n (_nbf_default n nbf) (M_stage (n / 2) (_nbf_default n nbf - 1) (-1)) /\
  agrees Mc n (_nbf_default n nbf) (Mc_stage (n / 2) (_nbf_default n nbf - 1) (-1)).
Proof.
  intros E. pose proof (generate_basis_sets_outcome n nbf verbose) as H.
  destruct (synthesis_outcome _ _ _) as [e |]; [congruence |].
  destruct H as (Hv & M' & Mc' & E' & AM & AMc).
  rewrite E in E'. injection E' as <- <-. auto.
Qed.

Lemma M_stage_mirror (h j t i c : Z) :
  M_stage (F := F) h j t (2 * h - i) c = M_stage h j t i c.
Proof.
  unfold M_stage. cbv zeta.
  replace (Z.abs (2 * h - i - h)) with (Z.abs (i - h)) by lia.
  replace ((1 + (2 * h - i) - (h + 1)) ^ 2) with ((1 + i - (h + 1)) ^ 2)
    by (rewrite !Z.pow_2_r; ring).
  reflexivity.
Qed.

Lemma Mc_stage_mirror (h j t i c : Z) :
  Mc_stage (F := F) h j t (2 * h - i) c = Mc_stage h j t i c.
Proof.
  unfold Mc_stage. cbv zeta.
  replace (Z.abs (2 * h - i - h)) with (Z.abs (i - h)) by lia.
  replace ((1 + (2 * h - i) - (h + 1)) ^ 2) with ((1 + i - (h + 1)) ^ 2)
    by (rewrite !Z.pow_2_r; ring).
  reflexivity.
Qed.

End SynthesizerOutcomes.

(** ** Shapes of the operators and of a synthesized bundle *)

Section OperatorShapes.
Context {F : Type} {SF : Scalar F}.

Lemma operators_outcome (M Mc : ndarray F) :
  _get_left_right_matrices M Mc = Raise LinAlgError \/
  exists M_left M_right,
    _get_left_right_matrices M Mc = Ok (M_left, M_right) /\
    has_shape M_left (shape1 Mc) (shape0 Mc) /\
    has_shape M_right (shape0 M) (shape1 M).
Proof.
  unfold _get_left_right_matrices. cbv zeta.
  rewrite (dot_aligned (transpose Mc) Mc) by reflexivity. cbn [bind].
  destruct (inv (mmul (transpose Mc) Mc)) as [A | e] eqn:EA; cbn [bind];
    [| left; f_equal; eapply inv_raises, EA].
  apply inv_shape in EA as [HA0 HA1]. simpl in HA0, HA1.
  rewrite (dot_aligned A (transpose Mc)) by (simpl; congruence). cbn [bind].
  rewrite (dot_aligned (transpose M) M) by reflexivity. cbn [bind].
  unfold add. simpl. rewrite !Nat.eqb_refl. simpl.
  destruct (inv (madd _ _)) as [B | e] eqn:EB; cbn [bind];
    [| left; f_equal; eapply inv_raises, EB].
  apply inv_shape in EB as [HB0 HB1]. simpl in HB0, HB1.
  rewrite (dot_aligned M B) by congruence. cbn [bind].
  right. eexists _, _. split; [reflexivity |]. repeat split; simpl; congruence.
Qed.

Variable __version__ : string.

(** What a synthesis hands back: arrays of the configuration's shapes. *)
Lemma synthesize_and_save_shapes (n nbf : Z) (basis_dir : option string) (verbose : bool)
    (w w1 : world F) (b : @bundle F) :
  synthesize_and_save __version__ n nbf basis_dir verbose w = (w1, Ok b) ->
  valid_config n nbf /\
  exists M Mc M_left M_right,
    b = (PyArray M, PyArray Mc, PyArray M_left, PyArray M_right) /\
    bundle_shapes M Mc M_left M_right (Z.to_nat n) (Z.to_nat nbf).
Proof.
  rewrite synthesize_and_save_cases.
  destruct (generate_basis_sets n (given nbf) verbose) as [[M Mc] | e] eqn:Eg;
    [| discriminate].
  apply generate_basis_sets_returned in Eg as (Hv & (HM0 & HM1 & _) & (HMc0 & HMc1 & _)).
  simpl in *.
  destruct (operators_outcome M Mc) as [E | (L & R & E & [HL0 HL1] & [HR0 HR1])];
    rewrite E; [discriminate |].
  intros [= <- <-]. split; [exact Hv |].
  exists M, Mc, L, R. split; [reflexivity |].
  repeat split; lia.
Qed.

End OperatorShapes.

(** ** What a lookup does to the files *)

Section CacheFrame.
Context {F : Type} {SF : Scalar F}.
Variable __version__ : string.

(** What a synthesis does to the files and to the log. *)
Lemma synthesize_and_save_frame (n nbf : Z) (basis_dir : option string) (verbose : bool)
    (w w1 : world F) (r : result (@bundle F)) :
  synthesize_and_save __version__ n nbf basis_dir verbose w = (w1, r) ->
  match r, basis_dir with
  | Ok (M, Mc, M_left, M_right), Some d =>
      files w1 = <[path_to_basis_file d n nbf :=
                     Saved [M; Mc; M_left; M_right; PyStr __version__]]> (files w) /\
      log w1 = log w ++ [EvGenerate n nbf; EvSave (path_to_basis_file d n nbf)]
  | _, _ => files w1 = files w /\ log w1 = log w ++ [EvGenerate n nbf]
  end.
Proof.
  rewrite synthesize_and_save_cases.
  destruct (generate_basis_sets n (given nbf) verbose) as [[M Mc] | e].
  - destruct (_get_left_right_matrices M Mc) as [[M_left M_right] | e].
    + destruct basis_dir as [d |]; intros [= <- <-]; split; reflexivity.
    + intros [= <- <-]. split; reflexivity.
  - intros [= <- <-]. split; reflexivity.
Qed.

Lemma lookup_frame (n : Z) (nbf : nbf_arg) (d : string) (verbose : bool)
    (w w1 : world F) (r : result (@bundle F)) :
  get_basis_sets_cached __version__ n nbf (Some d) verbose w = (w1, r) ->
  let p := path_to_basis_file d n (_nbf_default n nbf) in
  match r with
  | Ok (M, Mc, M_left, M_right) =>
      files w1 = files w \/
      files w1 = <[p := Saved [M; Mc; M_left; M_right; PyStr __version__]]> (files w)
  | Raise _ => files w1 = files w
  end.
Proof.
  rewrite get_basis_sets_cached_cases. cbv zeta.
  set (p := path_to_basis_file d n (_nbf_default n nbf)).
  assert (Hsynth : forall w0, files w0 = files w ->
            synthesize_and_save __version__ n (_nbf_default n nbf) (Some d) verbose w0
              = (w1, r) ->
            match r with
            | Ok (M, Mc, M_left, M_right) =>
                files w1 = files w \/
                files w1 = <[p := Saved [M; Mc; M_left; M_right; PyStr __version__]]> (files w)
            | Raise _ => files w1 = files w
            end).
  { intros w0 Hw0 H. apply synthesize_and_save_frame in H.
    destruct r as [[[[M Mc] L] R] | e].
    - right. rewrite <- Hw0. apply H.
    - rewrite <- Hw0. apply H. }
  destruct (files w !! p) as [s |] eqn:Hf.
  - rewrite load_bundle_cases. simpl files. rewrite Hf.
    assert (Hret : forall evs0 b0,
              match b0 with
              | (PyNone, _, _, _) =>
                  synthesize_and_save __version__ n (_nbf_default n nbf) (Some d) verbose
                    (logged w evs0)
              | _ => (logged w evs0, Ok b0)
              end = (w1, r) ->
              match r with
              | Ok (M, Mc, M_left, M_right) =>
                  files w1 = files w \/
                  files w1 = <[p := Saved [M; Mc; M_left; M_right; PyStr __version__]]> (files w)
              | Raise _ => files w1 = files w
              end).
    { intros evs0 [[[M Mc] L] R].
      destruct M; [apply Hsynth; reflexivity | |]; intros [= <- <-]; left; reflexivity. }
    destruct s as [[] | items].
    + intros [= <- <-]. reflexivity.
    + intros [= <- <-]. reflexivity.
    + destruct (decode_current items) as [b0 |]; [rewrite logged_logged; apply Hret |].
      destruct (decode_legacy items) as [b0 |]; [rewrite logged_logged; apply Hret |].
      intros [= <- <-]. reflexivity.
  - apply Hsynth. reflexivity.
Qed.

End CacheFrame.

(** ** The names of the cache files *)

Section Names.

Lemma no_char_pretty_N_go (c : ascii) (x : N) (s : string) :
  (forall d, Ascii.eqb (pretty_N_char d) c = false) ->
  no_char c s = true -> no_char c (pretty_N_go x s) = true.
Proof.
  intros Hc. revert s. induction (N.lt_wf_0 x) as [x _ IH]. intros s Hs.
  assert (x = 0 \/ 0 < x)%N as [-> | Hx] by lia.
  - rewrite pretty_N_go_0. exact Hs.
  - rewrite pretty_N_go_step by exact Hx. apply IH.
    + apply N.div_lt; [exact Hx | reflexivity].
    + cbn [no_char]. rewrite Hc. exact Hs.
Qed.

Lemma no_char_pretty_Z (c : ascii) (z : Z) :
  (forall d, Ascii.eqb (pretty_N_char d) c = false) ->
  Ascii.eqb "-" c = false ->
  no_char c (pretty z) = true.
Proof.
  intros Hc Hdash.
  pose proof (Hc 0%N) as Hzero. change (pretty_N_char 0) with "0"%char in Hzero.
  assert (HN : forall x : N, no_char c (pretty x) = true).
  { intros x. unfold pretty, pretty_N. case_decide.
    - cbn [no_char]. rewrite Hzero. reflexivity.
    - apply no_char_pretty_N_go; [exact Hc | reflexivity]. }
  destruct z as [| p | p]; unfold pretty, pretty_Z.
  - cbn [no_char]. rewrite Hzero. reflexivity.
  - apply HN.
  - change ("-" +:+ pretty p) with (String "-" (pretty p)).
    cbn [no_char]. rewrite Hdash. apply HN.
Qed.

Lemma digit_is_not (c : ascii) :
  c = "_"%char \/ c = "."%char ->
  forall d, Ascii.eqb (pretty_N_char d) c = false.
Proof.
  intros [-> | ->] d; unfold pretty_N_char; repeat case_match; reflexivity.
Qed.

(** Two strings cut at the first [c] of each. *)
Lemma append_at_first (c : ascii) (a a' b b' : string) :
  no_char c a = true -> no_char c a' = true ->
  a +:+ String c b = a' +:+ String c b' -> a = a' /\ b = b'.
Proof.
  revert a'. induction a as [| x a IH]; intros [| x' a'] Ha Ha' H; simpl in *.
  - injection H as <-. auto.
  - injection H as <- _. rewrite Ascii.eqb_refl in Ha'. discriminate.
  - injection H as -> _. rewrite Ascii.eqb_refl in Ha. discriminate.
  - injection H as <- H.
    apply andb_prop in Ha as [_ Ha]. apply andb_prop in Ha' as [_ Ha'].
    destruct (IH a' Ha Ha' H) as [-> ->]. auto.
Qed.

Lemma basis_name_inj (n nbf n' nbf' : Z) :
  basis_name n nbf = basis_name n' nbf' -> n = n' /\ nbf = nbf'.
Proof.
  unfold basis_name. intros H. apply (inj (String.app _)) in H.
  change (pretty n +:+ String "_" (pretty nbf +:+ String "." "npy")
          = pretty n' +:+ String "_" (pretty nbf' +:+ String "." "npy")) in H.
  apply append_at_first in H as [Hn H];
    try (apply no_char_pretty_Z; [apply digit_is_not; auto | reflexivity]).
  apply append_at_first in H as [Hk _];
    try (apply no_char_pretty_Z; [apply digit_is_not; auto | reflexivity]).
  split; eapply (inj pretty); eassumption.
Qed.

Lemma basis_name_relative (n nbf : Z) : starts_with_sep (basis_name n nbf) = false.
Proof. reflexivity. Qed.

Lemma append_assoc (a b c : string) : a +:+ b +:+ c = (a +:+ b) +:+ c.
Proof.
  induction a as [| x a IH]; [reflexivity |].
  change (String x (a +:+ b +:+ c) = String x ((a +:+ b) +:+ c)). f_equal. exact IH.
Qed.

Lemma os_path_join_basis_name (d : string) (n nbf : Z) :
  os_path_join d (basis_name n nbf) =
    (if bool_decide (d = "") || ends_with_sep d then d else d +:+ "/") +:+ basis_name n nbf.
Proof.
  unfold os_path_join. rewrite basis_name_relative.
  destruct (bool_decide (d = "") || ends_with_sep d); [reflexivity |].
  apply append_assoc.
Qed.

End Names.

(** ** The legacy constructor, case by case *)

Section LegacyConstructorFacts.
Context {F : Type} {SF : Scalar F}.

Lemma core_BASEX_init_cases
    (synth : Z -> Z -> bool -> result (ndarray F * ndarray F))
    (n nbf : Z) (d : string) (verbose calc_speeds : bool) (w : world F) :
  let n' := 2 * (n / 2) + 1 in
  let p := path_to_basis_file d n' nbf in
  core_BASEX_init synth n nbf d verbose calc_speeds w =
    match files w !! p with
    | Some (Saved items) =>
        (logged w [EvExists p; EvLoad p],
         match decode_legacy items with
         | Some (M, Mc, left_, right_) =>
             Ok (mk_core_BASEX verbose calc_speeds n' nbf left_ right_ M Mc)
         | None => Raise (ValueError unpack_mismatch)
         end)
    | Some (Unreadable fails_with_ValueError) =>
        (logged w [EvExists p; EvLoad p], Raise (ValueError unreadable_file))
    | Some (Unreadable fails_with_other) =>
        (logged w [EvExists p; EvLoad p], Raise IOError)
    | None =>
        match synth n' nbf verbose with
        | Raise e => (logged w [EvExists p; EvGenerate n' nbf], Raise e)
        | Ok (M, Mc) =>
            match get_left_right_matrices M Mc with
            | Raise e => (logged w [EvExists p; EvGenerate n' nbf], Raise e)
            | Ok (left_, right_) =>
                (mk_world
                   (<[p := Saved [PyArray left_; PyArray right_; PyArray M; PyArray Mc]]>
                      (files w))
                   (log w ++ [EvExists p; EvGenerate n' nbf; EvSave p]),
                 Ok (mk_core_BASEX verbose calc_speeds n' nbf
                       (PyArray left_) (PyArray right_) (PyArray M) (PyArray Mc)))
            end
        end
    end.
Proof.
  intros n' p.
  unfold core_BASEX_init, io_bind, os_path_exists, np_load, emit, io_lift, io_ret, np_save,
    logged.
  cbv zeta. simpl. fold n'. unfold path_to_basis_file in p. fold p.
  destruct (files w !! p) as [s |] eqn:Hf; simpl; rewrite ?Hf.
  - destruct s as [[] | items]; simpl; rewrite <- ?app_assoc; try reflexivity.
    destruct items as [|a [|b [|c [|e [|f items]]]]]; simpl; reflexivity.
  - destruct (synth _ _ _) as [[M Mc] | e]; simpl;
      [| rewrite <- ?app_assoc; reflexivity].
    destruct (get_left_right_matrices M Mc) as [[left_ right_] | e]; simpl;
      rewrite <- ?app_assoc; reflexivity.
Qed.

End LegacyConstructorFacts.

(** ** The model at work *)

(** The smallest basis: one Gaussian on three points. *)
Example generate_basis_sets_3_1 :
  generate_basis_sets (F := sym) 3 auto false =
    Ok (mk_ndarray 3 1 [[SMul (SInt 2) (SExp (SInt (-1)))];
                        [SMul (SInt 2) (SExp (SInt 0))];
                        [SMul (SInt 2) (SExp (SInt (-1)))]],
        mk_ndarray 3 1 [[SExp (SInt (-1))]; [SExp (SInt 0)]; [SExp (SInt (-1))]]).
Proof. vm_compute. reflexivity. Qed.

(** The center row of [Mc] is left at zero in every column [k >= 1]. *)
Example Mc_center_5_2 :
  (let* (M, Mc) := generate_basis_sets (F := sym) 5 auto false in getitem Mc 2 1)
  = Ok (SLit 0).
Proof. vm_compute. reflexivity. Qed.

(** The cache file of a configuration. *)
Example path_to_basis_file_3_1 :
  path_to_basis_file "./" 3 (_nbf_default 3 auto) = "./basex_basis_3_1.npy".
Proof. vm_compute. reflexivity. Qed.

(** * The claims *)

(** C1.  For every valid configuration and every basis index [k] with
    [1 <= k <= basis_count - 1], the synthesizer returns a matrix [M] whose
    center-row entry [M[center-1, k]] is [2 angn], and whose two mirrored
    entries [M[center-1+l, k]] and [M[center-1-l, k]] are, for every offset
    [1 <= l <= size - center], [2 (val + angn exp(-l^2) + S)], with [angn],
    [val], the series [S], its window [Delta] and its log-domain terms as
    defined by [angn], [val], [series], [Delta] and [series_term]. *)
Theorem C1_M_entries {F : Type} {SF : Scalar F}
    (size basis_count : Z) (nbf : nbf_arg) (verbose : bool) (k : Z) :
  valid_config size basis_count ->
  _nbf_default size nbf = basis_count ->
  1 <= k <= basis_count - 1 ->
  exists M Mc,
    generate_basis_sets size nbf verbose = Ok (M, Mc) /\
    getitem M (center size - 1) k = Ok (of_Z 2 * angn k)%F /\
    forall l, 1 <= l <= size - center size ->
      getitem M (center size - 1 + l) k = Ok (M_entry k l) /\
      getitem M (center size - 1 - l) k = Ok (M_entry k l).
Proof.
  intros Hvalid Hnbf Hk.
  destruct (generate_basis_sets_final size basis_count nbf verbose Hvalid Hnbf)
    as (M & Mc & E & AM & _); [right; lia |].
  destruct Hvalid as [Hodd Hbc].
  assert (Hn : size = 2 * (size / 2) + 1)
    by (pose proof (Z.div_mod size 2 ltac:(lia)); lia).
  exists M, Mc. split; [exact E |]. unfold center. split.
  - rewrite (agrees_getitem M _ _ _ _ _ AM) by lia.
    unfold M_stage. cbv zeta. repeat case_decide; try lia. reflexivity.
  - intros l Hl. split.
    + rewrite (agrees_getitem M _ _ _ _ _ AM) by lia.
      unfold M_stage. cbv zeta. repeat case_decide; try lia.
      replace (Z.abs _) with l by lia. reflexivity.
    + rewrite (agrees_getitem M _ _ _ _ _ AM) by lia.
      unfold M_stage. cbv zeta. repeat case_decide; try lia.
      replace (Z.abs _) with l by lia. reflexivity.
Qed.

Lemma C1_witness :
  exists M Mc,
    generate_basis_sets (F := sym) 5 (given 2) false = Ok (M, Mc) /\
    getitem M (center 5 - 1) 1 = Ok (of_Z 2 * angn 1)%F /\
    forall l, 1 <= l <= 5 - center 5 ->
      getitem M (center 5 - 1 + l) 1 = Ok (M_entry 1 l) /\
      getitem M (center 5 - 1 - l) 1 = Ok (M_entry 1 l).
Proof.
  apply (C1_M_entries (F := sym) 5 2 (given 2) false 1).
  - split; [reflexivity | vm_compute; split; discriminate].
  - reflexivity.
  - lia.
Defined.

(** C2.  For every valid configuration the synthesized matrices have the
    Gaussian profile in column 0, [M[:,0] = 2 exp(-R2)] and
    [Mc[:,0] = exp(-R2)] with [R2[i] = (i - center)^2] for [i = 1..size],
    and for every basis index [k >= 1] and offset [l = 1..size-center]
    both mirrored entries [Mc[center-1+l, k]] and [Mc[center-1-l, k]] are
    [exp(k^2 - l^2 + 2 k^2 ln(l/k))].  The matrices are returned by every
    quiet run and by every run with at least two basis functions. *)
Theorem C2_Mc_entries_and_first_column {F : Type} {SF : Scalar F}
    (size basis_count : Z) (nbf : nbf_arg) (verbose : bool) :
  valid_config size basis_count ->
  _nbf_default size nbf = basis_count ->
  (verbose = false \/ 1 < basis_count ->
     exists M Mc, generate_basis_sets size nbf verbose = Ok (M, Mc)) /\
  (forall M Mc, generate_basis_sets size nbf verbose = Ok (M, Mc) ->
     (forall i, 1 <= i <= size ->
        getitem M (i - 1) 0 = Ok (of_Z 2 * fexp (of_Z (- R2 size i)))%F /\
        getitem Mc (i - 1) 0 = Ok (fexp (of_Z (- R2 size i)))) /\
     (forall k l, 1 <= k <= basis_count - 1 -> 1 <= l <= size - center size ->
        getitem Mc (center size - 1 + l) k = Ok (val k l) /\
        getitem Mc (center size - 1 - l) k = Ok (val k l))).
Proof.
  intros Hvalid Hnbf. split.
  - intros Hv.
    destruct (generate_basis_sets_final size basis_count nbf verbose Hvalid Hnbf Hv)
      as (M & Mc & E & _). eauto.
  - intros M Mc E. apply generate_basis_sets_quiet in E.
    destruct (generate_basis_sets_final size basis_count nbf false Hvalid Hnbf)
      as (M' & Mc' & E' & AM & AMc); [left; reflexivity |].
    rewrite E in E'. injection E' as <- <-.
    destruct Hvalid as [Hodd Hbc].
    assert (Hn : size = 2 * (size / 2) + 1)
      by (pose proof (Z.div_mod size 2 ltac:(lia)); lia).
    unfold center, R2, center. split.
    + intros i Hi. split.
      * rewrite (agrees_getitem M _ _ _ _ _ AM) by lia.
        unfold M_stage. cbv zeta. case_decide; [| lia].
        do 4 f_equal. lia.
      * rewrite (agrees_getitem Mc _ _ _ _ _ AMc) by lia.
        unfold Mc_stage. cbv zeta. case_decide; [| lia].
        do 3 f_equal. lia.
    + intros k l Hk Hl. split.
      * rewrite (agrees_getitem Mc _ _ _ _ _ AMc) by lia.
        unfold Mc_stage. cbv zeta. repeat case_decide; try lia.
        replace (Z.abs _) with l by lia. reflexivity.
      * rewrite (agrees_getitem Mc _ _ _ _ _ AMc) by lia.
        unfold Mc_stage. cbv zeta. repeat case_decide; try lia.
        replace (Z.abs _) with l by lia. reflexivity.
Qed.

Lemma C2_witness :
  (false = false \/ 1 < 2 ->
     exists M Mc, generate_basis_sets (F := sym) 5 (given 2) false = Ok (M, Mc)) /\
  (forall M Mc, generate_basis_sets (F := sym) 5 (given 2) false = Ok (M, Mc) ->
     (forall i, 1 <= i <= 5 ->
        getitem M (i - 1) 0 = Ok (of_Z 2 * fexp (of_Z (- R2 5 i)))%F /\
        getitem Mc (i - 1) 0 = Ok (fexp (of_Z (- R2 5 i)))) /\
     (forall k l, 1 <= k <= 2 - 1 -> 1 <= l <= 5 - center 5 ->
        getitem Mc (center 5 - 1 + l) k = Ok (val k l) /\
        getitem Mc (center 5 - 1 - l) k = Ok (val k l))).
Proof.
  apply (C2_Mc_entries_and_first_column (F := sym) 5 2 (given 2) false).
  - split; [reflexivity | vm_compute; split; discriminate].
  - reflexivity.
Defined.

(** C3.  For every image [X] of the bundle's size, every bundle
    [(M, Mc, OpLeft, OpRight)] and every nonzero [dr], the transform
    returns exactly [(Mc (OpLeft X OpRight) Mc^T)] scaled by
    [MAGIC_NUMBER / dr], where [MAGIC_NUMBER] is the literal 8.053, the
    same on every call; nothing else is computed. *)
Theorem C3_transform_is_scaled_product {F : Type} {SF : Scalar F}
    (X M Mc OpLeft OpRight : ndarray F) (dr : Q) (size basis_count : nat) :
  bundle_shapes M Mc OpLeft OpRight size basis_count ->
  has_shape X size size ->
  ~ (dr == 0)%Q ->
  basex_transform X M Mc OpLeft OpRight dr
    = Ok (mscale (mmul (mmul Mc (mmul (mmul OpLeft X) OpRight)) (transpose Mc))
            (MAGIC_NUMBER / lit dr)%F) /\
  MAGIC_NUMBER = lit (8053 # 1000).
Proof.
  intros Hb HX Hdr. split; [| reflexivity].
  rewrite (basex_transform_aligned X M Mc OpLeft OpRight dr size basis_count Hb HX).
  rewrite truediv_nonzero by assumption. reflexivity.
Qed.

Lemma C3_witness :
  basex_transform (ones 3 3) (ones 3 1) (ones 3 1) (ones 1 3) (ones 3 1) 1
    = Ok (mscale (mmul (mmul (ones 3 1) (mmul (mmul (ones 1 3) (ones 3 3)) (ones 3 1)))
                    (transpose (ones 3 1)))
            (MAGIC_NUMBER / lit 1%Q)%F) /\
  MAGIC_NUMBER = lit (8053 # 1000).
Proof.
  apply (C3_transform_is_scaled_product (ones 3 3) (ones 3 1) (ones 3 1) (ones 1 3)
           (ones 3 1) 1 3 1).
  - repeat split.
  - split; reflexivity.
  - discriminate.
Defined.

(** C4.  For every pair of basis matrices [M] and [Mc] of shape
    [size x basis_count] the operator builder returns exactly
    [OpLeft = inverse(Mc^T Mc) Mc^T], without a regularization term, and
    [OpRight = M inverse(M^T M + q I)] with [q = 1] and [I] the
    [basis_count x basis_count] identity (and raises what an inverse
    raises); the builder of the legacy module computes the same. *)
Theorem C4_operator_builder {F : Type} {SF : Scalar F}
    (M Mc : ndarray F) (size basis_count : nat) :
  has_shape M size basis_count ->
  has_shape Mc size basis_count ->
  let q := of_Z 1 in
  let I := np_identity basis_count in
  let operators :=
    let* A := inv (mmul (transpose Mc) Mc) in
    let* B := inv (madd (mmul (transpose M) M) (mscale I q)) in
    Ok (mmul A (transpose Mc), mmul M B) in
  _get_left_right_matrices M Mc = operators /\
  get_left_right_matrices M Mc = operators.
Proof.
  intros HM HMc q I operators. split.
  - apply (operators_products M Mc size basis_count HM HMc).
  - rewrite legacy_operators. apply (operators_products M Mc size basis_count HM HMc).
Qed.

Lemma C4_witness :
  let operators :=
    let* A := inv (mmul (transpose (ones 3 1)) (ones 3 1)) in
    let* B := inv (madd (mmul (transpose (ones 3 1)) (ones 3 1))
                     (mscale (np_identity 1) (of_Z 1))) in
    Ok (mmul A (transpose (ones 3 1)), mmul (ones 3 1) B) in
  _get_left_right_matrices (ones 3 1) (ones 3 1) = operators /\
  get_left_right_matrices (ones 3 1) (ones 3 1) = operators.
Proof.
  apply (C4_operator_builder (ones 3 1) (ones 3 1) 3 1); split; reflexivity.
Defined.

(** C5.  For every input of the synthesizer: an even size raises the
    odd-size error, whatever the numerical library computes; a basis count
    above [size//2] raises one of the two configuration errors (the
    basis-count error when the size is odd), so nothing is truncated; and
    for an odd size with a basis count of at most [size//2] neither of the
    two is raised. *)
Theorem C5_configuration_checks {F : Type} {SF : Scalar F}
    (n : Z) (nbf : nbf_arg) (verbose : bool) :
  (n mod 2 = 0 ->
     generate_basis_sets n nbf verbose = Raise (ValueError n_must_be_odd)) /\
  (n / 2 < _nbf_default n nbf ->
     exists e, generate_basis_sets n nbf verbose = Raise e /\ configuration_error e) /\
  (n mod 2 <> 0 -> n / 2 < _nbf_default n nbf ->
     generate_basis_sets n nbf verbose = Raise (ValueError nbf_too_large)) /\
  (n mod 2 <> 0 -> _nbf_default n nbf <= n / 2 ->
     forall e, generate_basis_sets n nbf verbose = Raise e -> ~ configuration_error e).
Proof.
  assert (Heven : n mod 2 = 0 ->
            generate_basis_sets n nbf verbose = Raise (ValueError n_must_be_odd)).
  { intros H. unfold generate_basis_sets. rewrite H. reflexivity. }
  assert (Hlarge : n mod 2 <> 0 -> n / 2 < _nbf_default n nbf ->
            generate_basis_sets n nbf verbose = Raise (ValueError nbf_too_large)).
  { intros Hodd H. unfold generate_basis_sets.
    destruct (Z.eqb_spec (n mod 2) 0); [contradiction |].
    destruct (Z.ltb_spec (n / 2) (_nbf_default n nbf)); [reflexivity | lia]. }
  split; [exact Heven |]. split; [| split; [exact Hlarge |]].
  - intros H. destruct (decide (n mod 2 = 0)) as [He | Ho].
    + eexists. split; [apply Heven, He | left; reflexivity].
    + eexists. split; [apply Hlarge; assumption | right; reflexivity].
  - intros Hodd Hle e He [-> | ->];
      apply generate_basis_sets_raises in He; try assumption;
      destruct He as [He | [He | [He | He]]]; discriminate.
Qed.

Lemma C5_witness :
  generate_basis_sets (F := sym) 100 auto false = Raise (ValueError n_must_be_odd) /\
  generate_basis_sets (F := sym) 5 (given 3) false = Raise (ValueError nbf_too_large) /\
  (forall e, generate_basis_sets (F := sym) 5 (given 2) false = Raise e ->
     ~ configuration_error e).
Proof.
  split; [| split].
  - apply (proj1 (C5_configuration_checks (F := sym) 100 auto false)). reflexivity.
  - apply (proj1 (proj2 (proj2 (C5_configuration_checks (F := sym) 5 (given 3) false)))).
    + discriminate.
    + reflexivity.
  - apply (proj2 (proj2 (proj2 (C5_configuration_checks (F := sym) 5 (given 2) false)))).
    + discriminate.
    + discriminate.
Defined.

(** C6 (as the code has it).  For every call of the transform with a
    bundle: an image whose shape is not [size x size] makes the call fail
    with the shape error of the matrix product; [dr = 0] makes it fail with
    a division error; a negative [dr] is not rejected, the call returns the
    product scaled by [MAGIC_NUMBER / dr]. *)
Theorem C6_transform_rejections {F : Type} {SF : Scalar F}
    (X M Mc OpLeft OpRight : ndarray F) (dr : Q) (size basis_count : nat) :
  bundle_shapes M Mc OpLeft OpRight size basis_count ->
  (~ has_shape X size size ->
     basex_transform X M Mc OpLeft OpRight dr = Raise (ValueError shapes_not_aligned)) /\
  (has_shape X size size -> (dr == 0)%Q ->
     basex_transform X M Mc OpLeft OpRight dr = Raise ZeroDivisionError) /\
  (has_shape X size size -> (dr < 0)%Q ->
     basex_transform X M Mc OpLeft OpRight dr
       = Ok (mscale (mmul (mmul Mc (mmul (mmul OpLeft X) OpRight)) (transpose Mc))
               (MAGIC_NUMBER / lit dr)%F)).
Proof.
  intros Hb. split; [| split].
  - intros HX. unfold basex_transform.
    apply (transform_products_mismatch X M Mc OpLeft OpRight size basis_count _ Hb HX).
  - intros HX Hdr.
    rewrite (basex_transform_aligned X M Mc OpLeft OpRight dr size basis_count Hb HX).
    rewrite truediv_zero by assumption. reflexivity.
  - intros HX Hdr.
    rewrite (basex_transform_aligned X M Mc OpLeft OpRight dr size basis_count Hb HX).
    rewrite truediv_nonzero; [reflexivity |].
    intros H0. rewrite H0 in Hdr. discriminate.
Qed.

Lemma C6_witness :
  basex_transform (ones 2 3) (ones 3 1) (ones 3 1) (ones 1 3) (ones 3 1) 1
    = Raise (ValueError shapes_not_aligned) /\
  basex_transform (ones 3 3) (ones 3 1) (ones 3 1) (ones 1 3) (ones 3 1) 0
    = Raise ZeroDivisionError.
Proof.
  assert (Hb : bundle_shapes (ones 3 1) (ones 3 1) (ones 1 3) (ones 3 1) 3 1)
    by (repeat split).
  split.
  - apply (proj1 (C6_transform_rejections (ones 2 3) _ _ _ _ 1 3 1 Hb)).
    intros [H _]. discriminate.
  - apply (proj1 (proj2 (C6_transform_rejections (ones 3 3) _ _ _ _ 0 3 1 Hb)));
      [split |]; reflexivity.
Defined.

(** C6 as stated fails: with [dr = -1 <= 0] and an image of the right
    shape the call returns a result. *)
Lemma C6_counterexample :
  (-1 <= 0)%Q /\
  basex_transform (ones 3 3) (ones 3 1) (ones 3 1) (ones 1 3) (ones 3 1) (-1)
    = Ok (mscale (mmul (mmul (ones 3 1) (mmul (mmul (ones 1 3) (ones 3 3)) (ones 3 1)))
                    (transpose (ones 3 1)))
            (MAGIC_NUMBER / lit (-1)%Q)%F).
Proof.
  split; [vm_compute; discriminate | vm_compute; reflexivity].
Qed.

(** C7 (as the code has it).  For every stored bundle that is unreadable
    in both encodings, the cache lookup raises the load error to its
    caller: it synthesizes nothing and writes no file. *)
Theorem C7_unreadable_bundle_is_raised {F : Type} {SF : Scalar F} (__version__ : string)
    (n : Z) (nbf : nbf_arg) (d : string) (verbose : bool) (w : world F) :
  unreadable_in_both (files w !! path_to_basis_file d n (_nbf_default n nbf)) ->
  exists e evs,
    get_basis_sets_cached __version__ n nbf (Some d) verbose w = (logged w evs, Raise e) /\
    (e = IOError \/ e = ValueError unreadable_file \/ e = ValueError unpack_mismatch) /\
    synthesized evs = 0%nat /\
    Forall (fun ev => forall q, ev <> EvSave q) evs.
Proof.
  intros Hu. rewrite get_basis_sets_cached_cases. cbv zeta.
  destruct (files w !! _) as [[[] | items] |] eqn:Hf; simpl in Hu; try contradiction;
    rewrite load_bundle_cases; simpl files; rewrite Hf.
  - rewrite logged_logged. eexists _, _. split; [reflexivity |].
    split; [auto |]. split; [reflexivity |]. repeat constructor; discriminate.
  - rewrite logged_logged. eexists _, _. split; [reflexivity |].
    split; [auto |]. split; [reflexivity |]. repeat constructor; discriminate.
  - destruct Hu as [-> ->]. rewrite logged_logged. eexists _, _. split; [reflexivity |].
    split; [auto |]. split; [reflexivity |]. repeat constructor; discriminate.
Qed.

Lemma C7_witness :
  exists e evs,
    get_basis_sets_cached "0.5" 3 auto (Some "./") false truncated_world
      = (logged truncated_world evs, Raise e) /\
    (e = IOError \/ e = ValueError unreadable_file \/ e = ValueError unpack_mismatch) /\
    synthesized evs = 0%nat /\
    Forall (fun ev => forall q, ev <> EvSave q) evs.
Proof.
  apply (C7_unreadable_bundle_is_raised "0.5" 3 auto "./" false truncated_world).
  vm_compute. split; reflexivity.
Defined.

(** C7 as stated fails: the file of [truncated_world] is unreadable in
    both encodings and a fresh synthesis for [(3, 1)] would succeed, yet
    the lookup raises after its two loads. *)
Lemma C7_counterexample :
  unreadable_in_both (files truncated_world !! path_to_basis_file "./" 3 1) /\
  get_basis_sets_cached "0.5" 3 auto (Some "./") false truncated_world
    = (logged truncated_world
         [EvExists "./basex_basis_3_1.npy"; EvLoad "./basex_basis_3_1.npy";
          EvLoad "./basex_basis_3_1.npy"],
       Raise (ValueError unpack_mismatch)) /\
  (exists w b, synthesize_and_save "0.5" 3 1 (Some "./") false truncated_world = (w, Ok b)).
Proof.
  split; [vm_compute; split; reflexivity |]. split.
  - vm_compute. reflexivity.
  - vm_compute. eexists _, _. reflexivity.
Qed.

(** C8 (as the code has it).  For every stored bundle file whose load
    under the current five-element encoding fails with a [ValueError] (a
    wrong number of items, or a file [np.load] rejects so), the lookup
    loads the file a second time, for the legacy encoding, before anything
    else happens; a legacy tuple [(OpLeft, OpRight, M, Mc)] is returned
    under the same names as a current tuple
    [(M, Mc, OpLeft, OpRight, format_version)]; a load that fails with any
    other exception is raised at once. *)
Theorem C8_legacy_after_ValueError {F : Type} {SF : Scalar F} (__version__ : string)
    (n : Z) (nbf : nbf_arg) (d : string) (verbose : bool) (w : world F) :
  let p := path_to_basis_file d n (_nbf_default n nbf) in
  (current_load_fails_with_ValueError (files w !! p) ->
     exists w1 r evs,
       get_basis_sets_cached __version__ n nbf (Some d) verbose w = (w1, r) /\
       log w1 = log w ++ [EvExists p; EvLoad p; EvLoad p] ++ evs) /\
  (forall OpLeft OpRight M Mc,
     files w !! p = Some (Saved [OpLeft; OpRight; M; Mc]) -> M <> PyNone ->
     get_basis_sets_cached __version__ n nbf (Some d) verbose w
       = (logged w [EvExists p; EvLoad p; EvLoad p], Ok (M, Mc, OpLeft, OpRight))) /\
  (forall M Mc OpLeft OpRight format_version,
     files w !! p = Some (Saved [M; Mc; OpLeft; OpRight; format_version]) -> M <> PyNone ->
     get_basis_sets_cached __version__ n nbf (Some d) verbose w
       = (logged w [EvExists p; EvLoad p], Ok (M, Mc, OpLeft, OpRight))) /\
  (files w !! p = Some (Unreadable fails_with_other) ->
     get_basis_sets_cached __version__ n nbf (Some d) verbose w
       = (logged w [EvExists p; EvLoad p], Raise IOError)).
Proof.
  intros p. split; [| split; [| split]].
  - intros Hfail.
    destruct (get_basis_sets_cached __version__ n nbf (Some d) verbose w) as [w1 r] eqn:E.
    exists w1, r.
    enough (exists evs, log w1 = log w ++ [EvExists p; EvLoad p; EvLoad p] ++ evs)
      as [evs Hlog] by (exists evs; split; [reflexivity | exact Hlog]).
    revert E. rewrite get_basis_sets_cached_cases. cbv zeta. fold p.
    destruct (files w !! p) as [[[] | items] |] eqn:Hf; simpl in Hfail; try contradiction;
      rewrite load_bundle_cases; simpl files; rewrite Hf, ?Hfail.
    + rewrite logged_logged. intros [= <- <-]. exists []. reflexivity.
    + destruct (decode_legacy items) as [[[[M Mc] M_left] M_right] |].
      * rewrite logged_logged. destruct M.
        -- rewrite synthesize_and_save_cases.
           destruct (generate_basis_sets _ _ _) as [[M' Mc'] | e];
             [destruct (_get_left_right_matrices M' Mc') as [[L' R'] | e] |];
             intros [= <- <-]; eexists; simpl; rewrite <- app_assoc; reflexivity.
        -- intros [= <- <-]. exists []. reflexivity.
        -- intros [= <- <-]. exists []. reflexivity.
      * rewrite logged_logged. intros [= <- <-]. exists []. reflexivity.
  - intros OpLeft OpRight M Mc Hf HM.
    rewrite get_basis_sets_cached_cases. cbv zeta. fold p.
    rewrite Hf, load_bundle_cases. simpl files. rewrite Hf. simpl.
    rewrite logged_logged. destruct M; [contradiction | reflexivity | reflexivity].
  - intros M Mc OpLeft OpRight format_version Hf HM.
    rewrite get_basis_sets_cached_cases. cbv zeta. fold p.
    rewrite Hf, load_bundle_cases. simpl files. rewrite Hf. simpl.
    rewrite logged_logged. destruct M; [contradiction | reflexivity | reflexivity].
  - intros Hf.
    rewrite get_basis_sets_cached_cases. cbv zeta. fold p.
    rewrite Hf, load_bundle_cases. simpl files. rewrite Hf.
    rewrite logged_logged. reflexivity.
Qed.

Lemma C8_witness :
  get_basis_sets_cached "0.5" 3 auto (Some "./") false legacy_world
    = (logged legacy_world
         [EvExists (path_to_basis_file "./" 3 (_nbf_default 3 auto));
          EvLoad (path_to_basis_file "./" 3 (_nbf_default 3 auto));
          EvLoad (path_to_basis_file "./" 3 (_nbf_default 3 auto))],
       Ok (PyArray (ones 3 1), PyArray (ones 3 1), PyArray (ones 1 3), PyArray (ones 3 1))).
Proof.
  apply (proj1 (proj2 (C8_legacy_after_ValueError "0.5" 3 auto "./" false legacy_world))).
  - vm_compute. reflexivity.
  - discriminate.
Defined.

(** C8 as stated fails: on the file of [damaged_world] the load under the
    current encoding fails, and the lookup raises after that single load,
    without a second one for the legacy encoding. *)
Lemma C8_counterexample :
  files damaged_world !! path_to_basis_file "./" 3 1 = Some (Unreadable fails_with_other) /\
  get_basis_sets_cached "0.5" 3 auto (Some "./") false damaged_world
    = (logged damaged_world
         [EvExists "./basex_basis_3_1.npy"; EvLoad "./basex_basis_3_1.npy"],
       Raise IOError).
Proof.
  split; vm_compute; reflexivity.
Qed.

(** C9.  For every configuration and storage location where a loadable
    bundle file exists, the cache lookup returns that bundle without
    invoking the synthesizer; and whenever a lookup returns, a second
    lookup with the same configuration and storage location returns the
    same matrices without synthesizing, so that the two synthesize at most
    once. *)
Theorem C9_hit_and_second_lookup {F : Type} {SF : Scalar F} (__version__ : string)
    (n : Z) (nbf : nbf_arg) (d : string) :
  let p := path_to_basis_file d n (_nbf_default n nbf) in
  (forall (w : world F) (b : @bundle F) (verbose : bool),
     loadable (files w !! p) b ->
     exists evs,
       get_basis_sets_cached __version__ n nbf (Some d) verbose w = (logged w evs, Ok b) /\
       synthesized evs = 0%nat) /\
  (forall (w w1 : world F) (b : @bundle F) (verbose verbose' : bool),
     get_basis_sets_cached __version__ n nbf (Some d) verbose w = (w1, Ok b) ->
     exists evs1 evs2,
       log w1 = log w ++ evs1 /\
       get_basis_sets_cached __version__ n nbf (Some d) verbose' w1
         = (logged w1 evs2, Ok b) /\
       synthesized evs2 = 0%nat /\
       (synthesized (evs1 ++ evs2) <= 1)%nat).
Proof.
  intros p. split.
  - intros w b verbose Hl. apply lookup_hit, Hl.
  - intros w w1 b verbose verbose' H1.
    apply lookup_leaves_loadable in H1 as [Hl (evs1 & Hlog & Hs1)].
    destruct (lookup_hit __version__ n nbf d verbose' w1 b Hl) as (evs2 & H2 & Hs2).
    exists evs1, evs2. repeat split; try assumption.
    rewrite synthesized_app, Hs2. lia.
Qed.

Lemma C9_witness :
  exists w1 b evs1 evs2,
    get_basis_sets_cached "0.5" 3 auto (Some "./") false empty_world = (w1, Ok b) /\
    log w1 = log empty_world ++ evs1 /\
    get_basis_sets_cached "0.5" 3 auto (Some "./") false w1 = (logged w1 evs2, Ok b) /\
    synthesized evs2 = 0%nat /\
    (synthesized (evs1 ++ evs2) <= 1)%nat.
Proof.
  destruct (get_basis_sets_cached "0.5" 3 auto (Some "./") false empty_world)
    as [w1 [b | e]] eqn:E.
  - destruct (proj2 (C9_hit_and_second_lookup "0.5" 3 auto "./")
                empty_world w1 b false false E) as (evs1 & evs2 & H).
    exists w1, b, evs1, evs2. split; [reflexivity | exact H].
  - vm_compute in E. discriminate.
Defined.

(** C10.  For every integer [n] passed to the constructor of [BASEX], the
    size used throughout is [2 (n//2) + 1]: it is odd, [n + 1] for an even
    [n] and [n] for an odd one; every call the constructor makes on the
    cache file and on the synthesizer is for that size; the object keeps
    it as its [n], which the transform then uses; the constructor never
    raises the odd-size error, which a direct call of the synthesizer with
    an even size does raise.  The constructor of the legacy module coerces
    the size in the same way. *)
Theorem C10_constructor_coerces_size {F : Type} {SF : Scalar F} (__version__ : string)
    (n : Z) (nbf : nbf_arg) (basis_dir : option string) (calc_speeds : bool) (dr : Q)
    (verbose : bool) (w : world F) :
  let n' := 2 * (n / 2) + 1 in
  let built := BASEX_init __version__ n nbf basis_dir calc_speeds dr verbose w in
  (n' mod 2 = 1 /\ (n mod 2 = 0 -> n' = n + 1) /\ (n mod 2 = 1 -> n' = n)) /\
  (exists evs, log built.1 = log w ++ evs /\
     Forall (event_for basis_dir n' (_nbf_default n' nbf)) evs) /\
  (forall self, built.2 = Ok self -> self_n self = n') /\
  built.2 <> Raise (ValueError n_must_be_odd) /\
  (n mod 2 = 0 ->
     generate_basis_sets n nbf verbose = Raise (ValueError n_must_be_odd)) /\
  (forall synth nbf0 d,
     let legacy := core_BASEX_init synth n nbf0 d verbose calc_speeds w in
     (exists evs, log legacy.1 = log w ++ evs /\ Forall (event_for (Some d) n' nbf0) evs) /\
     (forall self, legacy.2 = Ok self -> core_n self = n') /\
     ((forall m k v, synth m k v = Raise (ValueError n_must_be_odd) -> m mod 2 = 0) ->
      legacy.2 <> Raise (ValueError n_must_be_odd))).
Proof.
  intros n' built. pose proof (coerced_size n) as Hn'. fold n' in Hn'.
  split; [exact Hn' |].
  assert (Hb : built =
            match get_basis_sets_cached __version__ n' nbf basis_dir verbose w with
            | (w', Ok (M, Mc, M_left, M_right)) =>
                (w', Ok (mk_BASEX verbose calc_speeds dr n' M Mc M_left M_right))
            | (w', Raise e) => (w', Raise e)
            end) by apply BASEX_init_cases.
  destruct (get_basis_sets_cached __version__ n' nbf basis_dir verbose w)
    as [w' r] eqn:E.
  apply get_basis_sets_cached_trace in E as [Hev Hodd].
  split; [| split; [| split; [| split]]].
  - rewrite Hb. destruct r as [[[[M Mc] M_left] M_right] | e]; exact Hev.
  - intros self. rewrite Hb. destruct r as [[[[M Mc] M_left] M_right] | e]; simpl.
    + intros [= <-]. reflexivity.
    + discriminate.
  - rewrite Hb. destruct r as [[[[M Mc] M_left] M_right] | e]; simpl; [discriminate |].
    intros [= ->]. destruct Hn' as [Hn' _]. specialize (Hodd eq_refl). lia.
  - intros He. unfold generate_basis_sets. rewrite He. reflexivity.
  - intros synth nbf0 d legacy.
    destruct legacy as [w1 r1] eqn:El. unfold legacy in El.
    apply core_BASEX_init_trace in El. exact El.
Qed.

Lemma C10_witness :
  (BASEX_init (F := sym) "0.5" 4 auto (Some "./") false 1 false empty_world).2
    <> Raise (ValueError n_must_be_odd) /\
  generate_basis_sets (F := sym) 4 auto false = Raise (ValueError n_must_be_odd).
Proof.
  pose proof (C10_constructor_coerces_size (F := sym) "0.5" 4 auto (Some "./") false 1
                false empty_world) as H.
  cbv zeta in H. destruct H as (_ & _ & _ & H1 & H2 & _).
  split; [exact H1 | apply H2; reflexivity].
Defined.

(** * Beyond the claims *)

(** X1.  With [verbose] set, a valid configuration with a single basis
    function makes the synthesizer raise on its last progress line, which
    reads the loop variable of a loop that has not run. *)
Theorem verbose_single_basis_function_raises {F : Type} {SF : Scalar F}
    (size : Z) (nbf : nbf_arg) :
  valid_config size 1 ->
  _nbf_default size nbf = 1 ->
  generate_basis_sets size nbf true = Raise UnboundLocalError.
Proof.
  intros Hvalid Hnbf.
  destruct (generate_basis_sets_final size 1 nbf false Hvalid Hnbf)
    as (M & Mc & E & _); [left; reflexivity |].
  rewrite (generate_basis_sets_loud size nbf (M, Mc) E), Hnbf. reflexivity.
Qed.

Lemma verbose_single_basis_function_witness :
  generate_basis_sets (F := sym) 3 auto true = Raise UnboundLocalError.
Proof.
  apply (verbose_single_basis_function_raises (F := sym) 3 auto).
  - split; [reflexivity | vm_compute; split; discriminate].
  - reflexivity.
Defined.

(** X2.  Every outcome of the synthesizer, by its size, its basis count and
    the [verbose] flag alone: an even size and a basis count above
    [n//2] raise the two configuration errors; past them a negative basis
    count raises the [ValueError] of [np.zeros], a basis count of zero the
    [IndexError] of the assignment to column 0, a verbose run with a single
    basis function the [UnboundLocalError] of the last progress line; every
    other call returns two arrays of shape [n x nbf]. *)
Theorem generate_basis_sets_outcomes {F : Type} {SF : Scalar F}
    (n : Z) (nbf : nbf_arg) (verbose : bool) :
  match synthesis_outcome n (_nbf_default n nbf) verbose with
  | Some e => generate_basis_sets n nbf verbose = Raise e
  | None => exists M Mc, generate_basis_sets n nbf verbose = Ok (M, Mc) /\
              has_shape M (Z.to_nat n) (Z.to_nat (_nbf_default n nbf)) /\
              has_shape Mc (Z.to_nat n) (Z.to_nat (_nbf_default n nbf))
  end.
Proof.
  pose proof (generate_basis_sets_outcome n nbf verbose) as H.
  destruct (synthesis_outcome _ _ _) as [e |]; [exact H |].
  destruct H as (_ & M & Mc & E & (HM0 & HM1 & _) & (HMc0 & HMc1 & _)).
  exists M, Mc. split; [exact E |]. repeat split; lia.
Qed.

(** X3.  Both arrays the synthesizer returns are mirror images of
    themselves about the center row: row [i] and row [n - 1 - i] hold the
    same value in every column. *)
Theorem basis_is_mirror_symmetric {F : Type} {SF : Scalar F}
    (n : Z) (nbf : nbf_arg) (verbose : bool)
    (M Mc : ndarray F) :
  generate_basis_sets n nbf verbose = Ok (M, Mc) ->
  forall i k, 0 <= i < n -> 0 <= k < _nbf_default n nbf ->
    exists x y,
      getitem M i k = Ok x /\ getitem M (n - 1 - i) k = Ok x /\
      getitem Mc i k = Ok y /\ getitem Mc (n - 1 - i) k = Ok y.
Proof.
  intros E i k Hi Hk.
  apply generate_basis_sets_returned in E as ([Hodd Hbc] & AM & AMc).
  assert (Hn : n - 1 = 2 * (n / 2)) by (pose proof (Z.div_mod n 2 ltac:(lia)); lia).
  replace (n - 1 - i) with (2 * (n / 2) - i) by lia.
  eexists _, _.
  rewrite (agrees_getitem M _ _ _ i k AM) by lia.
  rewrite (agrees_getitem M _ _ _ _ k AM) by lia.
  rewrite (agrees_getitem Mc _ _ _ i k AMc) by lia.
  rewrite (agrees_getitem Mc _ _ _ _ k AMc) by lia.
  rewrite M_stage_mirror, Mc_stage_mirror. repeat split.
Qed.

Lemma basis_is_mirror_symmetric_witness :
  exists M Mc,
    generate_basis_sets (F := sym) 5 (given 2) false = Ok (M, Mc) /\
    forall i k, 0 <= i < 5 -> 0 <= k < _nbf_default 5 (given 2) ->
      exists x y,
        getitem M i k = Ok x /\ getitem M (5 - 1 - i) k = Ok x /\
        getitem Mc i k = Ok y /\ getitem Mc (5 - 1 - i) k = Ok y.
Proof.
  destruct (generate_basis_sets (F := sym) 5 (given 2) false) as [[M Mc] | e] eqn:E.
  - exists M, Mc. split; [reflexivity |].
    apply (basis_is_mirror_symmetric 5 (given 2) false M Mc E).
  - vm_compute in E. discriminate.
Defined.

(** X4.  In the array [Mc] the synthesizer returns, the center row is
    [0.0] in every column [k >= 1]: the loops write [Mc] at the offsets
    [l >= 1] from the center only, so the entry keeps the value [np.zeros]
    gave it. *)
Theorem Mc_center_row_is_zero {F : Type} {SF : Scalar F}
    (n : Z) (nbf : nbf_arg) (verbose : bool)
    (M Mc : ndarray F) :
  generate_basis_sets n nbf verbose = Ok (M, Mc) ->
  forall k, 1 <= k < _nbf_default n nbf ->
    getitem Mc (center n - 1) k = Ok (lit 0%Q).
Proof.
  intros E k Hk.
  apply generate_basis_sets_returned in E as ([Hodd Hbc] & _ & AMc).
  assert (Hn : n - 1 = 2 * (n / 2)) by (pose proof (Z.div_mod n 2 ltac:(lia)); lia).
  unfold center.
  rewrite (agrees_getitem Mc _ _ _ _ k AMc) by lia.
  unfold Mc_stage. cbv zeta. repeat case_decide; try lia. reflexivity.
Qed.

Lemma Mc_center_row_is_zero_witness :
  exists M Mc,
    generate_basis_sets (F := sym) 5 (given 2) false = Ok (M, Mc) /\
    forall k, 1 <= k < _nbf_default 5 (given 2) ->
      getitem Mc (center 5 - 1) k = Ok (lit 0%Q).
Proof.
  destruct (generate_basis_sets (F := sym) 5 (given 2) false) as [[M Mc] | e] eqn:E.
  - exists M, Mc. split; [reflexivity |].
    apply (Mc_center_row_is_zero 5 (given 2) false M Mc E).
  - vm_compute in E. discriminate.
Defined.


(** X6.  An object that [BASEX.__init__] built without a cache file to
    read (no directory, or no file yet for its configuration) holds four
    arrays of the shapes of its coerced size [self.n] and its basis count,
    and [basex_transform] with them and a nonzero [self.dr] returns a
    [self.n x self.n] array for every image of that size: no product of
    the transform is misaligned. *)
Theorem fresh_object_transforms {F : Type} {SF : Scalar F}
    (__version__ : string) (n : Z) (nbf : nbf_arg)
    (basis_dir : option string) (calc_speeds : bool) (dr : Q) (verbose : bool)
    (w w1 : world F) (self : @BASEX F) :
  let n' := 2 * (n / 2) + 1 in
  fresh w basis_dir n' (_nbf_default n' nbf) ->
  BASEX_init __version__ n nbf basis_dir calc_speeds dr verbose w = (w1, Ok self) ->
  exists M Mc M_left M_right,
    self_M self = PyArray M /\ self_Mc self = PyArray Mc /\
    self_M_left self = PyArray M_left /\ self_M_right self = PyArray M_right /\
    bundle_shapes M Mc M_left M_right (Z.to_nat (self_n self))
      (Z.to_nat (_nbf_default (self_n self) nbf)) /\
    forall X : ndarray F,
      has_shape X (Z.to_nat (self_n self)) (Z.to_nat (self_n self)) ->
      ~ (self_dr self == 0)%Q ->
      exists IM,
        basex_transform X M Mc M_left M_right (self_dr self) = Ok IM /\
        has_shape IM (Z.to_nat (self_n self)) (Z.to_nat (self_n self)).
Proof.
  intros n' Hfresh. rewrite BASEX_init_cases. fold n'.
  destruct (get_basis_sets_cached __version__ n' nbf basis_dir verbose w)
    as [w' [[[[pM pMc] pL] pR] | e]] eqn:E; [| discriminate].
  intros [= <- <-]. simpl.
  assert (Hs : exists w0,
             synthesize_and_save __version__ n' (_nbf_default n' nbf) basis_dir verbose w0
               = (w', Ok (pM, pMc, pL, pR))).
  { destruct basis_dir as [d |].
    - rewrite get_basis_sets_cached_cases in E. cbv zeta in E. simpl in Hfresh.
      rewrite Hfresh in E. eauto.
    - rewrite get_basis_sets_cached_no_dir in E. eauto. }
  destruct Hs as [w0 Hs].
  apply synthesize_and_save_shapes in Hs as (_ & M & Mc & L & R & [= -> -> -> ->] & Hb).
  exists M, Mc, L, R. repeat split; try apply Hb.
  intros X HX Hdr.
  rewrite (basex_transform_aligned X M Mc L R dr _ _ Hb HX).
  rewrite truediv_nonzero by assumption. cbn [bind].
  eexists. split; [reflexivity |]. destruct Hb as (_ & [HMc0 _] & _).
  split; simpl; assumption.
Qed.

Lemma fresh_object_transforms_witness :
  exists w1 self M Mc M_left M_right,
    BASEX_init (F := sym) "0.5" 2 auto (Some "./") false 1 false empty_world
      = (w1, Ok self) /\
    self_n self = 3 /\
    self_M self = PyArray M /\ self_Mc self = PyArray Mc /\
    self_M_left self = PyArray M_left /\ self_M_right self = PyArray M_right /\
    exists IM,
      basex_transform (ones 3 3) M Mc M_left M_right (self_dr self) = Ok IM /\
      has_shape IM 3 3.
Proof.
  destruct (BASEX_init (F := sym) "0.5" 2 auto (Some "./") false 1 false empty_world)
    as [w1 [self | e]] eqn:E.
  - destruct (fresh_object_transforms "0.5" 2 auto (Some "./") false 1 false
                empty_world w1 self eq_refl E)
      as (M & Mc & M_left & M_right & HM & HMc & HL & HR & _ & Ht).
    assert (Hn : self_n self = 3).
    { pose proof E as E'. vm_compute in E'. injection E' as _ <-. reflexivity. }
    assert (Hdr : self_dr self = 1%Q).
    { pose proof E as E'. vm_compute in E'. injection E' as _ <-. reflexivity. }
    exists w1, self, M, Mc, M_left, M_right.
    repeat (split; [first [reflexivity | assumption] |]).
    rewrite Hn, Hdr in Ht. rewrite Hdr.
    apply (Ht (ones 3 3)); [split; reflexivity | discriminate].
  - vm_compute in E. discriminate.
Defined.

(** X7.  With [basis_dir=None] the lookup touches no file: it asks for
    none, loads none and saves none, leaves the files as they are, and
    synthesizes on every call; its result is the synthesizer's two arrays
    and the two operators built from them, or what either raised. *)
Theorem lookup_without_directory {F : Type} {SF : Scalar F}
    (__version__ : string) (n : Z) (nbf : nbf_arg)
    (verbose : bool) (w : world F) :
  let after := get_basis_sets_cached __version__ n nbf None verbose w in
  files after.1 = files w /\
  log after.1 = log w ++ [EvGenerate n (_nbf_default n nbf)] /\
  after.2 = (let* (M, Mc) := generate_basis_sets n nbf verbose in
             let* (M_left, M_right) := _get_left_right_matrices M Mc in
             Ok (PyArray M, PyArray Mc, PyArray M_left, PyArray M_right)).
Proof.
  cbv zeta. rewrite get_basis_sets_cached_no_dir, synthesize_and_save_cases.
  assert (Hg : generate_basis_sets n (given (_nbf_default n nbf)) verbose
               = generate_basis_sets n nbf verbose) by (destruct nbf; reflexivity).
  rewrite Hg.
  destruct (generate_basis_sets n nbf verbose) as [[M Mc] | e]; cbn [bind].
  - destruct (_get_left_right_matrices M Mc) as [[M_left M_right] | e]; cbn [bind];
      repeat split.
  - repeat split.
Qed.

(** X8.  A lookup with a directory changes no file but the one of its own
    configuration; a lookup that raises, also one whose synthesis failed,
    changes no file at all; and a lookup that found no file and returns has
    asked once, synthesized once and saved once, the file holding the four
    arrays it returned and the version string, in the current encoding. *)
Theorem lookup_writes_own_file_only {F : Type} {SF : Scalar F}
    (__version__ : string) (n : Z) (nbf : nbf_arg)
    (d : string) (verbose : bool) (w w1 : world F) (r : result (@bundle F)) :
  get_basis_sets_cached __version__ n nbf (Some d) verbose w = (w1, r) ->
  let p := path_to_basis_file d n (_nbf_default n nbf) in
  (forall q, q <> p -> files w1 !! q = files w !! q) /\
  (forall e, r = Raise e -> files w1 = files w) /\
  (forall M Mc M_left M_right, r = Ok (M, Mc, M_left, M_right) ->
     files w !! p = None ->
     files w1 = <[p := Saved [M; Mc; M_left; M_right; PyStr __version__]]> (files w) /\
     log w1 = log w ++ [EvExists p; EvGenerate n (_nbf_default n nbf); EvSave p]).
Proof.
  intros H p. pose proof (lookup_frame __version__ n nbf d verbose w w1 r H) as Hfr.
  cbv zeta in Hfr. fold p in Hfr. split; [| split].
  - intros q Hq. destruct r as [[[[M Mc] L] R] | e].
    + destruct Hfr as [-> | ->]; [reflexivity |]. apply lookup_insert_ne. congruence.
    + rewrite Hfr. reflexivity.
  - intros e ->. exact Hfr.
  - intros M Mc L R -> Hf. rewrite get_basis_sets_cached_cases in H. cbv zeta in H.
    fold p in H. rewrite Hf in H. apply synthesize_and_save_frame in H.
    simpl in H. fold p in H. destruct H as [H1 H2]. split; [exact H1 |].
    rewrite H2, <- app_assoc. reflexivity.
Qed.

Lemma lookup_writes_own_file_only_witness :
  exists w1 r,
    get_basis_sets_cached (F := sym) "0.5" 3 auto (Some "./") false empty_world = (w1, r) /\
    let p := path_to_basis_file "./" 3 (_nbf_default 3 auto) in
    (forall q, q <> p -> files w1 !! q = files empty_world !! q) /\
    (forall e, r = Raise e -> files w1 = files empty_world) /\
    (forall M Mc M_left M_right, r = Ok (M, Mc, M_left, M_right) ->
       files empty_world !! p = None ->
       files w1 = <[p := Saved [M; Mc; M_left; M_right; PyStr "0.5"]]> (files empty_world) /\
       log w1 = log empty_world ++ [EvExists p; EvGenerate 3 (_nbf_default 3 auto); EvSave p]).
Proof.
  destruct (get_basis_sets_cached (F := sym) "0.5" 3 auto (Some "./") false empty_world)
    as [w1 r] eqn:E.
  exists w1, r. split; [reflexivity |].
  apply (lookup_writes_own_file_only "0.5" 3 auto "./" false empty_world w1 r E).
Defined.

(** X9.  Under one directory the cache file is named after the
    configuration and nothing else: two configurations have the same file
    exactly when they have the same size and the same basis count, so a
    bundle is never read for another configuration than the one it was
    saved for. *)
Theorem cache_file_names_the_configuration (d : string) (n nbf n' nbf' : Z) :
  path_to_basis_file d n nbf = path_to_basis_file d n' nbf' <-> n = n' /\ nbf = nbf'.
Proof.
  split; [| intros [-> ->]; reflexivity].
  unfold path_to_basis_file. rewrite !os_path_join_basis_name.
  intros H. apply (inj (String.app _)) in H. apply basis_name_inj, H.
Qed.

(** X10.  What the legacy constructor leaves on disk, the lookup of
    [abel/basex.py] reads: after a legacy constructor has returned, with a
    file it found or one it wrote, a lookup for the object's size and basis
    count in the same directory returns the object's four matrices under
    the right names after two loads, without synthesizing; and a second
    legacy constructor reads them back after one load. *)
Theorem legacy_file_is_a_hit {F : Type} {SF : Scalar F} (__version__ : string)
    (synth : Z -> Z -> bool -> result (ndarray F * ndarray F))
    (n nbf : Z) (d : string) (verbose calc_speeds : bool) (w w1 : world F)
    (self : @core_BASEX F) :
  core_BASEX_init synth n nbf d verbose calc_speeds w = (w1, Ok self) ->
  core_M self <> PyNone ->
  let p := path_to_basis_file d (core_n self) (core_nbf self) in
  (forall verbose',
     get_basis_sets_cached __version__ (core_n self) (given (core_nbf self)) (Some d)
       verbose' w1
     = (logged w1 [EvExists p; EvLoad p; EvLoad p],
        Ok (core_M self, core_Mc self, core_left self, core_right self))) /\
  (forall verbose' calc_speeds',
     core_BASEX_init synth (core_n self) (core_nbf self) d verbose' calc_speeds' w1
     = (logged w1 [EvExists p; EvLoad p],
        Ok (mk_core_BASEX verbose' calc_speeds' (core_n self) (core_nbf self)
              (core_left self) (core_right self) (core_M self) (core_Mc self)))).
Proof.
  intros H HM p.
  assert (Hfile : core_n self = 2 * (n / 2) + 1 /\ core_nbf self = nbf /\
            files w1 !! p =
              Some (Saved [core_left self; core_right self; core_M self; core_Mc self])).
  { subst p. rewrite core_BASEX_init_cases in H. cbv zeta in H.
    destruct (files w !! _) as [[[] | items] |] eqn:Hf; try discriminate.
    - destruct items as [|a [|b [|c [|e [|f items]]]]]; try discriminate.
      simpl in H. injection H as <- <-. simpl. auto.
    - destruct (synth _ _ _) as [[M Mc] |]; [| discriminate].
      destruct (get_left_right_matrices M Mc) as [[left_ right_] |]; [| discriminate].
      injection H as <- <-. simpl. repeat split. apply lookup_insert_eq. }
  destruct Hfile as (Hn & Hnbf & Hfile). split.
  - intros verbose'. rewrite get_basis_sets_cached_cases. cbv zeta.
    simpl _nbf_default. fold p. rewrite Hfile, load_bundle_cases. simpl files.
    rewrite Hfile. simpl. rewrite logged_logged.
    destruct (core_M self); [contradiction | reflexivity | reflexivity].
  - intros verbose' calc_speeds'. rewrite core_BASEX_init_cases. cbv zeta.
    assert (Hc : 2 * (core_n self / 2) + 1 = core_n self).
    { rewrite Hn. apply coerced_size, coerced_size. }
    rewrite Hc. fold p. rewrite Hfile. reflexivity.
Qed.

Lemma legacy_file_is_a_hit_witness :
  exists w1 self,
    core_BASEX_init synth_sym 3 1 "./" false false empty_world = (w1, Ok self) /\
    let p := path_to_basis_file "./" (core_n self) (core_nbf self) in
    (forall verbose',
       get_basis_sets_cached "0.5" (core_n self) (given (core_nbf self)) (Some "./")
         verbose' w1
       = (logged w1 [EvExists p; EvLoad p; EvLoad p],
          Ok (core_M self, core_Mc self, core_left self, core_right self))) /\
    (forall verbose' calc_speeds',
       core_BASEX_init synth_sym (core_n self) (core_nbf self) "./" verbose' calc_speeds' w1
       = (logged w1 [EvExists p; EvLoad p],
          Ok (mk_core_BASEX verbose' calc_speeds' (core_n self) (core_nbf self)
                (core_left self) (core_right self) (core_M self) (core_Mc self)))).
Proof.
  destruct (core_BASEX_init synth_sym 3 1 "./" false false empty_world)
    as [w1 [self | e]] eqn:E.
  - exists w1, self. split; [reflexivity |].
    apply (legacy_file_is_a_hit "0.5" synth_sym 3 1 "./" false false empty_world w1 self E).
    pose proof E as E'. vm_compute in E'. injection E' as _ <-. discriminate.
  - vm_compute in E. discriminate.
Defined.

(** X11.  The other way round there is no reading: on a file that a
    lookup of [abel/basex.py] has synthesized and saved, the legacy
    constructor for the same size, basis count and directory raises the
    [ValueError] of unpacking five items into four names, after one load
    and without synthesizing or overwriting. *)
Theorem current_file_breaks_legacy_constructor {F : Type} {SF : Scalar F}
    (__version__ : string)
    (n : Z) (nbf : nbf_arg) (d : string) (verbose : bool) (w w1 : world F)
    (b : @bundle F) :
  let k := _nbf_default n nbf in
  let p := path_to_basis_file d n k in
  files w !! p = None ->
  get_basis_sets_cached __version__ n nbf (Some d) verbose w = (w1, Ok b) ->
  forall synth verbose' calc_speeds',
    core_BASEX_init synth n k d verbose' calc_speeds' w1
    = (logged w1 [EvExists p; EvLoad p], Raise (ValueError unpack_mismatch)).
Proof.
  intros k p Hf H synth verbose' calc_speeds'.
  rewrite get_basis_sets_cached_cases in H. cbv zeta in H. fold k p in H.
  rewrite Hf in H.
  pose proof (synthesize_and_save_shapes __version__ _ _ _ _ _ _ _ H) as ([Hodd _] & _).
  apply synthesize_and_save_frame in H.
  destruct b as [[[M Mc] M_left] M_right]. destruct H as [Hfiles _]. fold p in Hfiles.
  rewrite core_BASEX_init_cases. cbv zeta.
  assert (Hc : 2 * (n / 2) + 1 = n) by (apply coerced_size, Hodd).
  rewrite Hc. fold p. rewrite Hfiles. simpl files. rewrite lookup_insert_eq. reflexivity.
Qed.

Lemma current_file_breaks_legacy_constructor_witness :
  exists w1 b,
    get_basis_sets_cached (F := sym) "0.5" 3 auto (Some "./") false empty_world
      = (w1, Ok b) /\
    forall synth verbose' calc_speeds',
      core_BASEX_init synth 3 1 "./" verbose' calc_speeds' w1
      = (logged w1 [EvExists "./basex_basis_3_1.npy"; EvLoad "./basex_basis_3_1.npy"],
         Raise (ValueError unpack_mismatch)).
Proof.
  destruct (get_basis_sets_cached (F := sym) "0.5" 3 auto (Some "./") false empty_world)
    as [w1 [b | e]] eqn:E.
  - exists w1, b. split; [reflexivity |].
    apply (current_file_breaks_legacy_constructor "0.5" 3 auto "./" false empty_world w1 b
             eq_refl E).
  - vm_compute in E. discriminate.
Defined.

(** X12.  [center_image] of the legacy module, for data that fits on its
    [2n x 2n] canvas with the pixel [(cx, cy)] at the canvas position
    [(n, n)]: it returns an [n x n] array whose pixel [(i, j)] is the
    data's pixel [(i + n//2 - n + cy, j + n//2 - n + cx)] where the data
    has one and [0.0] elsewhere.  The center pixel [data[cy, cx]] lands at
    row and column [n - n//2], which for an odd [n] is [n//2 + 1], the
    value of [center n]. *)
Theorem center_image_placement {F : Type} {SF : Scalar F} (data : ndarray F) (cx cy n : Z) :
  well_formed data ->
  let Nh := Z.of_nat (shape0 data) in
  let Nw := Z.of_nat (shape1 data) in
  0 <= n - cy -> n - cy + Nh <= 2 * n ->
  0 <= n - cx -> n - cx + Nw <= 2 * n ->
  exists out,
    center_image data (inject_Z cx, inject_Z cy) n = Ok out /\
    has_shape out (Z.to_nat n) (Z.to_nat n) /\
    (forall i j, 0 <= i < n -> 0 <= j < n ->
       getitem out i j =
         let r := i + n / 2 - n + cy in
         let c := j + n / 2 - n + cx in
         if decide (0 <= r < Nh /\ 0 <= c < Nw) then getitem data r c else Ok (lit 0%Q)) /\
    (0 <= cy < Nh -> 0 <= cx < Nw -> 2 <= n ->
       getitem out (n - n / 2) (n - n / 2) = getitem data cy cx) /\
    (n mod 2 = 1 -> n - n / 2 = center n).
Proof.
  intros Hwf Nh Nw Hy0 Hy1 Hx0 Hx1.
  assert (Hn : 0 <= n) by lia.
  assert (Hh : 0 <= n / 2 <= n).
  { split; [apply Z.div_pos; lia | apply Z.div_le_upper_bound; lia]. }
  pose proof (well_formed_agrees data Hwf) as Hd.
  unfold center_image. cbv zeta. simpl fst. simpl snd. rewrite !trunc_inject_Z.
  destruct (np_zeros_square n Hn) as (im & -> & Him). cbn [bind].
  destruct (agrees_setslice im data _ _ _ _ (n - cy) (n - cx) Him Hd)
    as (im' & -> & Him'); try assumption. cbn [bind].
  pose proof (agrees_getslice im' _ _ _ (n / 2) (n + n / 2) (n / 2) (n + n / 2) Him')
    as Hout.
  specialize (Hout ltac:(lia) ltac:(lia) ltac:(lia) ltac:(lia)).
  assert (Hpix : forall i j, 0 <= i < n -> 0 <= j < n ->
            getitem (getslice im' (n / 2) (n + n / 2) (n / 2) (n + n / 2)) i j =
              if decide (0 <= i + n / 2 - n + cy < Nh /\ 0 <= j + n / 2 - n + cx < Nw)
              then getitem data (i + n / 2 - n + cy) (j + n / 2 - n + cx)
              else Ok (lit 0%Q)).
  { intros i j Hi Hj.
    rewrite (agrees_getitem _ _ _ _ i j Hout) by lia.
    fold Nh Nw. repeat case_decide; try lia.
    - rewrite (agrees_getitem data _ _ _ _ _ Hd) by (fold Nh Nw; lia).
      do 3 f_equal; lia.
    - reflexivity. }
  eexists. split; [reflexivity |]. split; [| split; [| split]].
  - destruct Hout as (H0 & H1 & _). split; lia.
  - intros i j Hi Hj. cbv zeta. apply Hpix; assumption.
  - intros Hcy Hcx H2.
    assert (0 < n / 2) by (apply Z.div_str_pos; lia).
    rewrite Hpix by lia. case_decide; [| lia]. f_equal; lia.
  - intros Hodd. unfold center. pose proof (Z.div_mod n 2 ltac:(lia)). lia.
Qed.

Lemma center_image_placement_witness :
  exists out,
    center_image pixels (inject_Z 1, inject_Z 1) 3 = Ok out /\
    has_shape out 3 3 /\
    getitem out 2 2 = getitem pixels 1 1 /\
    getitem out 1 1 = getitem pixels 0 0 /\
    getitem out 0 0 = Ok (lit 0%Q).
Proof.
  destruct (center_image_placement pixels 1 1 3) as (out & E & Hs & Hpix & Hc & _).
  - intros [| [| i]] [| [| j]] Hi Hj; simpl in Hi, Hj; try lia; eexists; reflexivity.
  - simpl. lia.
  - simpl. lia.
  - simpl. lia.
  - simpl. lia.
  - exists out. split; [exact E |]. split; [exact Hs |]. split; [| split].
    + apply Hc; simpl; lia.
    + rewrite (Hpix 1 1) by lia. reflexivity.
    + rewrite (Hpix 0 0) by lia. reflexivity.
Defined.



(** X14.  A center far below the data is not rejected by [center_image]:
    for [n + Nh < cy <= 3n] both bounds of the row slice are negative, so
    numpy counts them from the end of the canvas, and the call does what
    it does for the center [cy - 2n]. *)
Theorem center_image_wraps {F : Type} {SF : Scalar F} (data : ndarray F) (cx cy n : Z) :
  let Nh := Z.of_nat (shape0 data) in
  n + Nh < cy <= 3 * n ->
  center_image data (inject_Z cx, inject_Z cy) n
    = center_image data (inject_Z cx, inject_Z (cy - 2 * n)) n.
Proof.
  intros Nh Hcy. unfold center_image. cbv zeta. simpl fst. simpl snd.
  rewrite !trunc_inject_Z. fold Nh.
  destruct (np_zeros (2 * n) (2 * n)) as [im |] eqn:Ez; [| reflexivity]. cbn [bind].
  assert (Hs0 : shape0 im = Z.to_nat (2 * n)).
  { unfold np_zeros in Ez. destruct (_ || _); [discriminate |]. injection Ez as <-.
    reflexivity. }
  assert (Hsl : slice (shape0 im) (n - cy) (n - cy + Nh)
                = slice (shape0 im) (n - (cy - 2 * n)) (n - (cy - 2 * n) + Nh)).
  { unfold slice, adjust. rewrite Hs0.
    destruct (Z.ltb_spec (n - cy) 0); [| lia].
    destruct (Z.ltb_spec (n - cy + Nh) 0); [| lia].
    destruct (Z.ltb_spec (n - (cy - 2 * n)) 0); [lia |].
    destruct (Z.ltb_spec (n - (cy - 2 * n) + Nh) 0); [lia |].
    f_equal; lia. }
  unfold setslice. rewrite Hsl. reflexivity.
Qed.

Lemma center_image_wraps_witness :
  center_image pixels (inject_Z 1, inject_Z 7) 3
    = center_image pixels (inject_Z 1, inject_Z (7 - 2 * 3)) 3.
Proof.
  apply (center_image_wraps pixels 1 7 3). simpl. lia.
Defined.



(** X17.  [BASEX.__call__] of [abel/basex.py] and the shape of its data:
    it raises its own [ValueError] exactly for a column, a shape [(N, 1)]
    with [N <> 1]; when it returns a one-dimensional array the data had a
    single row (also a two-dimensional [1 x N] array comes back as one
    row), and when it returns a two-dimensional array the data had neither
    a single row nor a single column. *)
Theorem call_input_shapes {F : Type} {SF : Scalar F} {C S : Type}
    (tools_center_image : ndarray F -> C -> Z -> Z -> result (ndarray F))
    (tools_calculate_speeds : pydata F -> Z -> result S)
    (median_filter : ndarray F -> Z -> ndarray F)
    (gaussian_filter : ndarray F -> Q -> ndarray F)
    (n : Z) (dr : Q) (calc_speeds : bool) (M Mc M_left M_right : ndarray F)
    (data : pydata F) (center : C)
    (median_size : Z) (gaussian_blur : Q) (post_median : Z) (symmetrize : bool) :
  let N0 := shape0 (np_atleast_2d data) in
  let N1 := shape1 (np_atleast_2d data) in
  let called :=
    BASEX_call tools_center_image tools_calculate_speeds median_filter gaussian_filter
      n dr calc_speeds M Mc M_left M_right data center median_size gaussian_blur
      post_median symmetrize in
  (N0 <> 1%nat /\ N1 = 1%nat <-> called = Raises (wrong_input_shape (N0, N1))) /\
  (forall out speeds, called = Returns (out, speeds) ->
     match out with
     | Data1 _ => N0 = 1%nat
     | Data2 _ => N0 <> 1%nat /\ N1 <> 1%nat
     end).
Proof.
  intros N0 N1 called. subst called. unfold BASEX_call. cbv zeta. fold N0 N1.
  destruct (Nat.eqb_spec N0 1) as [H0 | H0]; cbn [call_bind].
  - split.
    + split; [intros [? _]; contradiction |].
      destruct (tools_center_image _ _ _ _) as [image |]; cbn [call_of_result call_bind];
        [| discriminate].
      destruct symmetrize; [discriminate |].
      destruct (basex_transform _ _ _ _ _ _) as [recon |]; cbn [call_of_result call_bind];
        [| discriminate].
      simpl (1 =? 1).  cbv iota.
      destruct (row0 _) as [r |]; cbn [call_of_result call_bind]; [| discriminate].
      destruct calc_speeds; [| discriminate].
      destruct (tools_calculate_speeds _ _); cbn [call_of_result call_bind]; discriminate.
    + intros out speeds.
      destruct (tools_center_image _ _ _ _) as [image |]; cbn [call_of_result call_bind];
        [| discriminate].
      destruct symmetrize; [discriminate |].
      destruct (basex_transform _ _ _ _ _ _) as [recon |]; cbn [call_of_result call_bind];
        [| discriminate].
      simpl (1 =? 1).  cbv iota.
      destruct (row0 _) as [r |]; cbn [call_of_result call_bind]; [| discriminate].
      destruct calc_speeds.
      * destruct (tools_calculate_speeds _ _); cbn [call_of_result call_bind];
          [| discriminate]. intros [= <- _]. exact H0.
      * intros [= <- _]. exact H0.
  - destruct (Nat.eqb_spec N1 1) as [H1 | H1]; cbn [call_bind].
    + split; [split; auto | discriminate].
    + split.
      * split; [intros [_ ?]; contradiction |].
        destruct (tools_center_image _ _ _ _) as [image |]; cbn [call_of_result call_bind];
          [| discriminate].
        destruct symmetrize; [discriminate |].
        destruct (basex_transform _ _ _ _ _ _) as [recon |]; cbn [call_of_result call_bind];
          [| discriminate].
        simpl (2 =? 1). cbv iota. cbn [call_bind].
        destruct calc_speeds; [| discriminate].
        destruct (tools_calculate_speeds _ _); cbn [call_of_result call_bind]; discriminate.
      * intros out speeds.
        destruct (tools_center_image _ _ _ _) as [image |]; cbn [call_of_result call_bind];
          [| discriminate].
        destruct symmetrize; [discriminate |].
        destruct (basex_transform _ _ _ _ _ _) as [recon |]; cbn [call_of_result call_bind];
          [| discriminate].
        simpl (2 =? 1). cbv iota. cbn [call_bind].
        destruct calc_speeds.
        -- destruct (tools_calculate_speeds _ _); cbn [call_of_result call_bind];
             [| discriminate]. intros [= <- _]. auto.
        -- intros [= <- _]. auto.
Qed.

(** X18.  The legacy [BASEX.__call__] with its filters off is the legacy
    transform of the centered image: for a bundle of the object's size it
    returns [Mc (left image right) Mc^T] of the image [center_image]
    returned, unscaled, together with the speeds computed from that
    product when [calc_speeds] is set; no product is misaligned, whatever
    the shape of the data, and the only errors are those of the centering
    and of the speed distribution. *)
Theorem legacy_call_transforms_centered_image {F : Type} {SF : Scalar F}
    (median_filter : ndarray F -> Z -> ndarray F)
    (gaussian_filter : ndarray F -> Q -> ndarray F)
    (calculate_speeds : ndarray F -> result (list F))
    (n : Z) (calc_speeds : bool) (left_ right_ Mc data : ndarray F) (center : Q * Q)
    (median_size : Z) (gaussian_blur : Q) (post_median : Z) (basis_count : nat) :
  has_shape Mc (Z.to_nat n) basis_count ->
  has_shape left_ basis_count (Z.to_nat n) ->
  has_shape right_ (Z.to_nat n) basis_count ->
  median_size <= 0 -> (gaussian_blur <= 0)%Q -> post_median <= 0 ->
  core_BASEX_call median_filter gaussian_filter calculate_speeds
    n calc_speeds left_ right_ Mc data center median_size gaussian_blur post_median false
  = (let* image := center_image data center n in
     let IM := mmul (mmul Mc (mmul (mmul left_ image) right_)) (transpose Mc) in
     if calc_speeds then let* speeds := calculate_speeds IM in Ok (IM, Some speeds)
     else Ok (IM, None)).
Proof.
  intros HMc Hl Hr Hm Hg Hp. unfold core_BASEX_call.
  destruct (center_image data center n) as [image | e] eqn:E; cbn [bind]; [| reflexivity].
  apply center_image_shape in E as [_ Himage].
  destruct (Z.ltb_spec 0 median_size); [lia |].
  destruct (Z.ltb_spec 0 post_median); [lia |].
  apply Qle_bool_iff in Hg. rewrite Hg. simpl negb. cbv iota.
  unfold core_basex_transform_speeds.
  rewrite (core_basex_transform_unscaled image Mc left_ right_ _ _ HMc Hl Hr Himage).
  cbn [bind]. cbv zeta. destruct calc_speeds; [| reflexivity].
  destruct (calculate_speeds _); reflexivity.
Qed.

Lemma legacy_call_transforms_centered_image_witness :
  core_BASEX_call (fun a _ => a) (fun a _ => a) (fun _ => Ok [])
    3 false (ones 1 3) (ones 3 1) (ones 3 1) pixels (1%Q, 1%Q) 0 0 0 false
  = (let* image := center_image pixels (1%Q, 1%Q) 3 in
     Ok (mmul (mmul (ones 3 1) (mmul (mmul (ones 1 3) image) (ones 3 1)))
           (transpose (ones 3 1)), None)).
Proof.
  apply (legacy_call_transforms_centered_image (fun a _ => a) (fun a _ => a)
           (fun _ => Ok []) 3 false (ones 1 3) (ones 3 1) (ones 3 1) pixels (1%Q, 1%Q)
           0 0 0 1);
    first [split; reflexivity | lia | discriminate].
Defined.

(** X19.  [BASEX.__call__] of [abel/basex.py] on two-dimensional data with
    its filters off, for a bundle of the object's size and an image of that
    size from the centering: the result is [Mc (M_left image M_right) Mc^T]
    scaled by [MAGIC_NUMBER / self.dr], passed on to [calculate_speeds]
    when [calc_speeds] is set; an object built with [dr = 0] raises
    [ZeroDivisionError] on every such call. *)
Theorem call_scales_transform_of_centered_image {F : Type} {SF : Scalar F} {C S : Type}
    (tools_center_image : ndarray F -> C -> Z -> Z -> result (ndarray F))
    (tools_calculate_speeds : pydata F -> Z -> result S)
    (median_filter : ndarray F -> Z -> ndarray F)
    (gaussian_filter : ndarray F -> Q -> ndarray F)
    (n : Z) (dr : Q) (calc_speeds : bool) (M Mc M_left M_right data image : ndarray F)
    (center : C) (median_size : Z) (gaussian_blur : Q) (post_median : Z)
    (basis_count : nat) :
  bundle_shapes M Mc M_left M_right (Z.to_nat n) basis_count ->
  shape0 data <> 1%nat -> shape1 data <> 1%nat ->
  tools_center_image data center n 2 = Ok image ->
  has_shape image (Z.to_nat n) (Z.to_nat n) ->
  median_size <= 0 -> (gaussian_blur <= 0)%Q -> post_median <= 0 ->
  let IM := mmul (mmul Mc (mmul (mmul M_left image) M_right)) (transpose Mc) in
  BASEX_call tools_center_image tools_calculate_speeds median_filter gaussian_filter
    n dr calc_speeds M Mc M_left M_right (Data2 data) center median_size gaussian_blur
    post_median false
  = if Qeq_bool dr 0 then Raises (raised ZeroDivisionError)
    else
      let recon := Data2 (mscale IM (MAGIC_NUMBER / lit dr)%F) in
      if calc_speeds then
        let+ speeds := call_of_result (tools_calculate_speeds recon n) in
        Returns (recon, Some speeds)
      else Returns (recon, None).
Proof.
  intros Hb H0 H1 Hc Himage Hm Hg Hp IM. unfold BASEX_call. cbv zeta.
  cbn [np_atleast_2d].
  destruct (Nat.eqb_spec (shape0 data) 1); [contradiction |].
  destruct (Nat.eqb_spec (shape1 data) 1); [contradiction |]. cbn [call_bind].
  rewrite Hc. cbn [call_of_result call_bind].
  destruct (Z.ltb_spec 0 median_size); [lia |].
  destruct (Z.ltb_spec 0 post_median); [lia |].
  apply Qle_bool_iff in Hg. rewrite Hg. simpl negb. cbv iota.
  rewrite (basex_transform_aligned image M Mc M_left M_right dr _ _ Hb Himage).
  unfold truediv. destruct (Qeq_bool dr 0); cbn [bind call_of_result call_bind];
    [reflexivity |].
  simpl (2 =? 1). cbv iota. cbn [call_bind]. reflexivity.
Qed.

Lemma call_scales_transform_of_centered_image_witness :
  BASEX_call (C := unit) (S := unit) (fun a _ _ _ => Ok a) (fun _ _ => Ok tt)
    (fun a _ => a) (fun a _ => a)
    3 2 false (ones 3 1) (ones 3 1) (ones 1 3) (ones 3 1) (Data2 (ones 3 3)) tt 0 0 0 false
  = Returns
      (Data2 (mscale (mmul (mmul (ones 3 1) (mmul (mmul (ones 1 3) (ones 3 3)) (ones 3 1)))
                        (transpose (ones 3 1)))
                (MAGIC_NUMBER / lit 2%Q)%F), None).
Proof.
  apply (call_scales_transform_of_centered_image (C := unit) (S := unit)
           (fun a _ _ _ => Ok a) (fun _ _ => Ok tt) (fun a _ => a) (fun a _ => a)
           3 2 false (ones 3 1) (ones 3 1) (ones 1 3) (ones 3 1) (ones 3 3) (ones 3 3) tt
           0 0 0 1);
    first [repeat split; reflexivity | discriminate | lia].
Defined.
